(** * go-haproxy: the PROXY protocol v2 header codec

    A shallow embedding of [header.go], [version.go] and the address file
    (protocol byte, address length, address variants) of the package
    [haproxy], followed by the properties of decoding ([Header.ReadFrom]) and
    encoding ([Header.WriteTo]).

    Conventions of the model.
    - A Go [byte] is a [Z] meant to range over 0..255; [int], [int64] and
      [uint16] values are [Z] as well, with every conversion that can wrap
      written out ([uint16_of_int], [int16_of_uint16], [byte_of]).
    - A Go [string] is a [String.string]; [bytes_of_string] and
      [string_of_bytes] are the conversions [[]byte(s)] and [string(b)].
    - [io.Reader] and [io.Writer] are type classes; [bytes.Reader] and
      [bytes.Buffer] are their in-memory instances, [ShortReader] is a
      source that hands its data out in chunks and [Recorder] wraps a source
      and records the calls of [Read] made on it.
    - A run-time panic is an outcome of its own ([Panic]); the state of the
      source, of the sink and of the receiver at that point is kept.
    - Pointers are modelled by the values they point to; a [net.Addr] that is
      the nil interface or of a type the package does not know is
      [net.OtherAddr].  Typed nil pointers (a nil [*net.TCPAddr],
      [*net.UDPAddr] or [*net.UnixAddr] as an endpoint, a nil pointer to an
      address variant) are outside the model: what the methods of package
      [net] do on them is not part of this package.  Every statement about
      an address is about endpoints that are not nil. *)

From Stdlib Require Import ZArith String Ascii Bool Lia List.
Import ListNotations.
Open Scope Z_scope.

(** ** Errors and outcomes *)

Inductive error : Type :=
| EOF
    (* io.EOF *)
| SourceError (code : nat)
    (* any other error value reported by the underlying source or sink *)
| ProxyProtocolError (Expected Found : list Z)
    (* &ProxyProtocolError{Expected, Found} *)
| TransportProtocolError (TransportProtocol AddressFamily AddressLength : Z)
    (* &TransportProtocolError{TransportProtocol, AddressFamily, AddressLength} *)
| UnsupportedProtocolVersion (expected got : Z)
    (* fmt.Errorf("unsupported protocol version: expected %x, but got %x", ..) *)
| UnsupportedCommand (got : Z)
    (* fmt.Errorf("unsupported command: expected either 0x0 or 0x1, but got %x", ..) *)
| UnsupportedAddressFamily (got : Z)
    (* fmt.Errorf("unsupported address family: expected 0x0 - 0x3, but got %x", ..) *)
| UnsupportedTransportProtocol (got : Z)
    (* fmt.Errorf("unsupported transport protocol: expected 0x0 - 0x2, but got %x", ..) *).

(** What a call of [ReadFrom] or [WriteTo] does: it returns the pair
    [(m, err)] or it panics. *)
Inductive outcome : Type :=
| Return (m : Z) (err : option error)
| Panic (msg : string).

(** A pure helper either yields a value or panics. *)
Inductive result (A : Type) : Type :=
| Ok (a : A)
| Panicked (msg : string).
Arguments Ok {A} a.
Arguments Panicked {A} msg.

Definition nil_dereference : string :=
  "invalid memory address or nil pointer dereference"%string.
Definition makeslice_len : string := "makeslice: len out of range"%string.
Definition unsupported_address_type : string :=
  "address type is not supported"%string.

(** ** Integer conversions *)

Definition byte_of (x : Z) : Z := x mod 256.
Definition uint16_of_int (x : Z) : Z := x mod 65536.
Definition int16_of_uint16 (x : Z) : Z := (x + 32768) mod 65536 - 32768.

(** ** Slices *)

(** [make([]byte, n)] for a length that is not negative. *)
Definition make (n : nat) : list Z := repeat 0 n.

(** The contents of [dst] after [copy(dst, src)]. *)
Definition copy (dst src : list Z) : list Z :=
  firstn (length dst) src ++ skipn (length src) dst.

Definition bytes_of_string (s : string) : list Z :=
  map (fun c => Z.of_N (N_of_ascii c)) (list_ascii_of_string s).

Definition string_of_bytes (b : list Z) : string :=
  string_of_list_ascii (map (fun x => ascii_of_N (Z.to_N x)) b).

(** ** io.Reader and io.Writer *)

(** [Read r n] is one call [r.Read(buf)] with [len(buf) = n]: the bytes the
    source delivers, the error it reports and the source afterwards. *)
Class Reader (R : Type) := Read : R -> nat -> list Z * option error * R.

(** [Write w p] is one call [w.Write(p)]: the count, the error and the sink
    afterwards. *)
Class Writer (W : Type) := Write : W -> list Z -> Z * option error * W.

(** [n, err := r.Read(buf)]: the buffer afterwards, [n], [err], the source. *)
Definition call_Read {R} `{Reader R} (r : R) (buf : list Z)
  : list Z * Z * option error * R :=
  let '(p, err, r') := Read r (length buf) in
  let p := firstn (length buf) p in
  (copy buf p, Z.of_nat (length p), err, r').

Module bytes.

Fixpoint Equal (a b : list Z) : bool :=
  match a, b with
  | [], [] => true
  | x :: a', y :: b' => (x =? y) && Equal a' b'
  | _, _ => false
  end.

(** [bytes.Reader]: the unread part of the slice. *)
Record Reader := NewReader { unread : list Z }.

(** The method [Read] of [bytes.Reader]. *)
Definition Reader_Read (r : Reader) (n : nat) : list Z * option error * Reader :=
  match unread r with
  | [] => ([], Some EOF, r)
  | s => (firstn n s, None, NewReader (skipn n s))
  end.

(** [bytes.Buffer]: the bytes written so far. *)
Record Buffer := NewBuffer { Bytes : list Z }.

(** The method [Write] of [bytes.Buffer]. *)
Definition Buffer_Write (w : Buffer) (p : list Z) : Z * option error * Buffer :=
  (Z.of_nat (length p), None, NewBuffer (Bytes w ++ p)).

End bytes.

#[export] Instance bytes_Reader : Reader bytes.Reader := bytes.Reader_Read.
#[export] Instance bytes_Buffer : Writer bytes.Buffer := bytes.Buffer_Write.

(** A source that holds [pending] and serves the i-th call of [Read] with at
    most the i-th element of [limits] bytes (no limit once the list is used
    up); it reports [io.EOF] when nothing is pending. *)
Record ShortReader := { pending : list Z; limits : list nat }.

Definition ShortReader_Read (r : ShortReader) (n : nat)
  : list Z * option error * ShortReader :=
  match pending r with
  | [] => ([], Some EOF, r)
  | s =>
      let k := match limits r with [] => n | c :: _ => Nat.min n c end in
      (firstn k s, None, {| pending := skipn k s; limits := tl (limits r) |})
  end.

#[export] Instance ShortReader_Reader : Reader ShortReader := ShortReader_Read.

(** One call of [Read] as a recording source saw it: the length of the
    buffer passed, the bytes delivered and the error reported. *)
Record call := { asked : nat; delivered : list Z; reported : option error }.

(** A source together with the record of the calls of [Read] made on it,
    oldest first. *)
Record Recorder (R : Type) := { source : R; calls : list call }.
Arguments source {R} _.
Arguments calls {R} _.

Definition Recorder_Read {R} `{Reader R} (r : Recorder R) (n : nat)
  : list Z * option error * Recorder R :=
  let '(p, err, s) := Read (source r) n in
  (p, err,
   {| source := s;
      calls := calls r ++ [{| asked := n; delivered := p; reported := err |}] |}).

#[export] Instance Recorder_Reader {R} `{Reader R} : Reader (Recorder R) :=
  Recorder_Read.

(** The source [r] with nothing recorded yet. *)
Definition record {R} (r : R) : Recorder R := {| source := r; calls := [] |}.

Module binary.
Module BigEndian.
(** [binary.BigEndian.Uint16(b)] for [len(b) >= 2] and bytes in 0..255. *)
Definition Uint16 (b : list Z) : Z :=
  Z.lor (nth 1 b 0) (Z.shiftl (nth 0 b 0) 8).

(** The two bytes [binary.BigEndian.PutUint16] stores for a uint16. *)
Definition PutUint16 (v : Z) : list Z :=
  [byte_of (Z.shiftr v 8); byte_of v].
End BigEndian.

(** [binary.Write(w, binary.BigEndian, v)] for a 16-bit [v], given as the
    uint16 with the same bits: one [Write] of the two bytes, only the
    error is returned. *)
Definition Write {W} `{Writer W} (w : W) (v : Z) : option error * W :=
  let '(_, err, w') := Write w (BigEndian.PutUint16 v) in
  (err, w').
End binary.

(** ** Constants and field types (version.go, address file) *)

Definition ProtocolSignature : list Z :=
  [0x0D; 0x0A; 0x0D; 0x0A; 0x00; 0x0D; 0x0A; 0x51; 0x55; 0x49; 0x54; 0x0A].

Definition ProtocolVersion : Z := 0x2.

(** [type Command byte] with its two constants. *)
Definition Command : Type := Z.
Definition CommandLOCAL : Command := 0.
Definition CommandPROXY : Command := 1.

(** [type AddressFamily byte]. *)
Definition AddressFamily : Type := Z.
Definition AddressFamilyUNSPEC : AddressFamily := 0.
Definition AddressFamilyINET : AddressFamily := 1.
Definition AddressFamilyINET6 : AddressFamily := 2.
Definition AddressFamilyUNIX : AddressFamily := 3.

(** [type TransportProtocol byte]. *)
Definition TransportProtocol : Type := Z.
Definition TransportProtocolUNSPEC : TransportProtocol := 0.
Definition TransportProtocolSTREAM : TransportProtocol := 1.
Definition TransportProtocolDGRAM : TransportProtocol := 2.

Module VersionByte.

Record t := { ProtocolVersion : Z; Command : Command }.

(** [var version VersionByte]. *)
Definition zero : t := {| ProtocolVersion := 0; Command := 0 |}.

Definition ReadFrom {R} `{Reader R} (v : t) (r : R)
  : t * Z * option error * R :=
  let n := 0 in
  let '(data, m, err, r) := call_Read r (make 1) in
  let n := n + m in
  match err with
  | Some e => (v, n, Some e, r)
  | None =>
      let v := {| ProtocolVersion := Z.shiftr (nth 0 data 0) 4;
                  Command := Z.land (nth 0 data 0) 15 |} in
      (v, n, None, r)
  end.

Definition WriteTo {W} `{Writer W} (v : t) (w : W) : Z * option error * W :=
  Write w [Z.lor (byte_of (Z.shiftl (ProtocolVersion v) 4)) (byte_of (Command v))].

End VersionByte.

Module ProtocolByte.

Record t := { AddressFamily : AddressFamily; TransportProtocol : TransportProtocol }.

Definition zero : t := {| AddressFamily := 0; TransportProtocol := 0 |}.

(** [==] on two [ProtocolByte] values, as the [switch] of [ReadFrom] uses it. *)
Definition eqb (p q : t) : bool :=
  (AddressFamily p =? AddressFamily q)
  && (TransportProtocol p =? TransportProtocol q).

Definition ReadFrom {R} `{Reader R} (p : t) (r : R)
  : t * Z * option error * R :=
  let n := 0 in
  let '(data, m, err, r) := call_Read r (make 1) in
  let n := n + m in
  match err with
  | Some e => (p, n, Some e, r)
  | None =>
      let p := {| AddressFamily := Z.shiftr (nth 0 data 0) 4;
                  TransportProtocol := Z.land (nth 0 data 0) 15 |} in
      (p, n, None, r)
  end.

Definition WriteTo {W} `{Writer W} (p : t) (w : W) : Z * option error * W :=
  Write w [Z.lor (byte_of (Z.shiftl (AddressFamily p) 4))
                 (byte_of (TransportProtocol p))].

End ProtocolByte.

(** [type AddressLength int16]. *)
Module AddressLength.

Definition t : Type := Z.

Definition ReadFrom {R} `{Reader R} (a : t) (r : R)
  : t * Z * option error * R :=
  let n := 0 in
  let '(data, m, err, r) := call_Read r (make 2) in
  let n := n + m in
  match err with
  | Some e => (a, n, Some e, r)
  | None =>
      let length := int16_of_uint16 (binary.BigEndian.Uint16 data) in
      (length, n, None, r)
  end.

Definition WriteTo {W} `{Writer W} (a : t) (w : W) : Z * option error * W :=
  let '(err, w) := binary.Write w (uint16_of_int a) in
  match err with
  | Some e => (0, Some e, w)
  | None => (2, None, w)
  end.

End AddressLength.

(** ** Addresses *)

Module net.

(** [net.UnixAddr]. *)
Record UnixAddr := { Name : string; Net : string }.

(** A [net.Addr]: a pointer to one of the three address types the package
    handles, or anything else (the nil interface, another type). *)
Inductive Addr : Type :=
| TCPAddr (IP : list Z) (Port : Z) (Zone : string)
| UDPAddr (IP : list Z) (Port : Z) (Zone : string)
| Unix (a : UnixAddr)
| OtherAddr.

End net.

(** The implementations of the interface [ProxyAddress]. *)
Inductive ProxyAddress : Type :=
| IPv4Address (SourceAddr DestinationAddr : net.Addr)
| IPv6Address (SourceAddr DestinationAddr : net.Addr)
| UnixAddr (SourceAddr DestinationAddr : net.UnixAddr).

Definition getTransportProtocol (addr : net.Addr) : result TransportProtocol :=
  match addr with
  | net.TCPAddr _ _ _ => Ok TransportProtocolSTREAM
  | net.UDPAddr _ _ _ => Ok TransportProtocolDGRAM
  | net.Unix a =>
      if String.eqb (net.Net a) "unixgram" then Ok TransportProtocolDGRAM
      else Ok TransportProtocolSTREAM
  | net.OtherAddr => Panicked unsupported_address_type
  end.

(** ** Reading the address block *)

Definition readPort {R} `{Reader R} (r : R) : Z * Z * option error * R :=
  let '(port, n, err, r) := call_Read r (make 2) in
  match err with
  | Some e => (0, n, Some e, r)
  | None => (binary.BigEndian.Uint16 port, n, None, r)
  end.

(** The first component is the [*net.IP], [None] for nil. *)
Definition readIP {R} `{Reader R} (r : R) (length : nat)
  : option (list Z) * Z * option error * R :=
  let '(ip, n, err, r) := call_Read r (make length) in
  match err with
  | Some e => (None, n, Some e, r)
  | None => (Some ip, n, None, r)
  end.

Record ipReadResult := {
  sourceIP : option (list Z);
  destinationIP : option (list Z);
  sourcePort : Z;
  destinationPort : Z
}.

Definition readIPsAndPorts {R} `{Reader R} (r : R) (addressLength : nat)
  : option ipReadResult * Z * option error * R :=
  let m := 0 in
  let '(sip, n, err, r) := readIP r addressLength in
  let m := m + n in
  match err with
  | Some e => (None, m, Some e, r)
  | None =>
  let '(dip, n, err, r) := readIP r addressLength in
  let m := m + n in
  match err with
  | Some e => (None, m, Some e, r)
  | None =>
  let '(sport, n, err, r) := readPort r in
  let m := m + n in
  match err with
  | Some e => (None, m, Some e, r)
  | None =>
  let '(dport, n, err, r) := readPort r in
  let m := m + n in
  match err with
  | Some e => (None, m, Some e, r)
  | None =>
      (Some {| sourceIP := sip; destinationIP := dip;
               sourcePort := sport; destinationPort := dport |}, m, None, r)
  end end end end.

Record unixReadResult := { SourceAddr : list Z; DestinationAddr : list Z }.

Definition readUnix {R} `{Reader R} (r : R)
  : option unixReadResult * Z * option error * R :=
  let '(src, n, err, r) := call_Read r (make 108) in
  match err with
  | Some e => (None, n, Some e, r)
  | None =>
  let '(dst, m, err, r) := call_Read r (make 108) in
  let n := n + m in
  match err with
  | Some e => (None, n, Some e, r)
  | None => (Some {| SourceAddr := src; DestinationAddr := dst |}, n, None, r)
  end end.

(** ** Writing the address block *)

Definition alignIP (ip : list Z) : list Z :=
  if (length ip <? 16)%nat then make (16 - length ip) ++ ip else ip.

Definition addressToBytes (addr : net.Addr) : result (list Z) :=
  match addr with
  | net.TCPAddr ip _ _ => Ok (alignIP ip)
  | net.UDPAddr ip _ _ => Ok (alignIP ip)
  | net.Unix a => Ok (copy (make 108) (bytes_of_string (net.Name a)))
  | net.OtherAddr => Panicked unsupported_address_type
  end.

Definition getPort (addr : net.Addr) : result Z :=
  match addr with
  | net.TCPAddr _ port _ => Ok (uint16_of_int port)
  | net.UDPAddr _ port _ => Ok (uint16_of_int port)
  | _ => Panicked unsupported_address_type
  end.

Definition writePorts {W} `{Writer W} (w : W) (src dst : net.Addr) : outcome * W :=
  let m := 0 in
  match getPort src with
  | Panicked msg => (Panic msg, w)
  | Ok p =>
  let '(err, w) := binary.Write w p in
  match err with
  | Some e => (Return m (Some e), w)
  | None =>
  let m := m + 2 in
  match getPort dst with
  | Panicked msg => (Panic msg, w)
  | Ok p =>
  let '(err, w) := binary.Write w p in
  match err with
  | Some e => (Return m (Some e), w)
  | None =>
  let m := m + 2 in
  (Return m None, w)
  end end end end.

(** The methods of [IPv4Address]; [skipn 12 b] is the slice [b[12:]], which
    cannot be out of range: [addressToBytes] yields at least 16 bytes. *)
Module IPv4Address.

Definition WriteTo {W} `{Writer W} (src dst : net.Addr) (w : W) : outcome * W :=
  let m := 0 in
  match addressToBytes src with
  | Panicked msg => (Panic msg, w)
  | Ok b =>
  let '(n, err, w) := Write w (skipn 12 b) in
  let m := m + n in
  match err with
  | Some e => (Return m (Some e), w)
  | None =>
  match addressToBytes dst with
  | Panicked msg => (Panic msg, w)
  | Ok b =>
  let '(n, err, w) := Write w (skipn 12 b) in
  let m := m + n in
  match err with
  | Some e => (Return m (Some e), w)
  | None =>
  match writePorts w src dst with
  | (Panic msg, w) => (Panic msg, w)
  | (Return k err, w) =>
  let m := m + k in
  match err with
  | Some e => (Return m (Some e), w)
  | None => (Return m None, w)
  end end end end end end.

Definition getLength : AddressLength.t := 12.

Definition getSignature (src : net.Addr) : result ProtocolByte.t :=
  match getTransportProtocol src with
  | Panicked msg => Panicked msg
  | Ok t => Ok {| ProtocolByte.AddressFamily := AddressFamilyINET;
                  ProtocolByte.TransportProtocol := t |}
  end.

End IPv4Address.

Module IPv6Address.

Definition WriteTo {W} `{Writer W} (src dst : net.Addr) (w : W) : outcome * W :=
  let m := 0 in
  match addressToBytes src with
  | Panicked msg => (Panic msg, w)
  | Ok b =>
  let '(n, err, w) := Write w b in
  let m := m + n in
  match err with
  | Some e => (Return m (Some e), w)
  | None =>
  match addressToBytes dst with
  | Panicked msg => (Panic msg, w)
  | Ok b =>
  let '(n, err, w) := Write w b in
  let m := m + n in
  match err with
  | Some e => (Return m (Some e), w)
  | None =>
  match writePorts w src dst with
  | (Panic msg, w) => (Panic msg, w)
  | (Return k err, w) =>
  let m := m + k in
  match err with
  | Some e => (Return m (Some e), w)
  | None => (Return m None, w)
  end end end end end end.

Definition getLength : AddressLength.t := 36.

Definition getSignature (src : net.Addr) : result ProtocolByte.t :=
  match getTransportProtocol src with
  | Panicked msg => Panicked msg
  | Ok t => Ok {| ProtocolByte.AddressFamily := AddressFamilyINET6;
                  ProtocolByte.TransportProtocol := t |}
  end.

End IPv6Address.

Module UnixAddr.

Definition WriteTo {W} `{Writer W} (src dst : net.UnixAddr) (w : W) : outcome * W :=
  let m := 0 in
  match addressToBytes (net.Unix src) with
  | Panicked msg => (Panic msg, w)
  | Ok b =>
  let '(n, err, w) := Write w b in
  let m := m + n in
  match err with
  | Some e => (Return m (Some e), w)
  | None =>
  match addressToBytes (net.Unix dst) with
  | Panicked msg => (Panic msg, w)
  | Ok b =>
  let '(n, err, w) := Write w b in
  let m := m + n in
  match err with
  | Some e => (Return m (Some e), w)
  | None => (Return m None, w)
  end end end end.

Definition getLength : AddressLength.t := 216.

Definition getSignature (src : net.UnixAddr) : result ProtocolByte.t :=
  match getTransportProtocol (net.Unix src) with
  | Panicked msg => Panicked msg
  | Ok t => Ok {| ProtocolByte.AddressFamily := AddressFamilyUNIX;
                  ProtocolByte.TransportProtocol := t |}
  end.

End UnixAddr.

(** Method calls through the interface [ProxyAddress]. *)
Definition ProxyAddress_WriteTo {W} `{Writer W} (a : ProxyAddress) (w : W)
  : outcome * W :=
  match a with
  | IPv4Address src dst => IPv4Address.WriteTo src dst w
  | IPv6Address src dst => IPv6Address.WriteTo src dst w
  | UnixAddr src dst => UnixAddr.WriteTo src dst w
  end.

Definition getLength (a : ProxyAddress) : AddressLength.t :=
  match a with
  | IPv4Address _ _ => IPv4Address.getLength
  | IPv6Address _ _ => IPv6Address.getLength
  | UnixAddr _ _ => UnixAddr.getLength
  end.

Definition getSignature (a : ProxyAddress) : result ProtocolByte.t :=
  match a with
  | IPv4Address src _ => IPv4Address.getSignature src
  | IPv6Address src _ => IPv6Address.getSignature src
  | UnixAddr src _ => UnixAddr.getSignature src
  end.

(** ** The header (header.go) *)

Module Header.

Record t := { Command : Command; ProxyAddress : option ProxyAddress }.

(** [var header Header]. *)
Definition zero : t := {| Command := 0; ProxyAddress := None |}.

Definition set_Command (h : t) (c : Z) : t :=
  {| Command := c; ProxyAddress := ProxyAddress h |}.

Definition set_ProxyAddress (h : t) a : t :=
  {| Command := Command h; ProxyAddress := Some a |}.

(** The composite literal [ProtocolByte{f, p}]. *)
Definition pb (f : AddressFamily) (p : TransportProtocol) : ProtocolByte.t :=
  {| ProtocolByte.AddressFamily := f; ProtocolByte.TransportProtocol := p |}.

Definition ReadFrom {R} `{Reader R} (h : t) (r : R) : outcome * t * R :=
  let m := 0 in
  let '(signature, n, err, r) := call_Read r (make 12) in
  let m := m + n in
  match err with
  | Some e => (Return m (Some e), h, r)
  | None =>
  if negb (bytes.Equal signature ProtocolSignature) then
    (Return m (Some (ProxyProtocolError ProtocolSignature signature)), h, r)
  else
  (* Read protocol version and command, combined in a single byte *)
  let '(version, k, err, r) := VersionByte.ReadFrom VersionByte.zero r in
  let m := m + k in
  match err with
  | Some e => (Return m (Some e), h, r)
  | None =>
  if negb (VersionByte.ProtocolVersion version =? ProtocolVersion) then
    (Return m (Some (UnsupportedProtocolVersion
                       ProtocolVersion (VersionByte.ProtocolVersion version))), h, r)
  else
  if negb (VersionByte.Command version =? CommandLOCAL)
     && negb (VersionByte.Command version =? CommandPROXY) then
    (Return m (Some (UnsupportedCommand (VersionByte.Command version))), h, r)
  else
  let h := set_Command h (VersionByte.Command version) in
  let '(protocol, k, err, r) := ProtocolByte.ReadFrom ProtocolByte.zero r in
  let m := m + k in
  match err with
  | Some e => (Return m (Some e), h, r)
  | None =>
  if negb (ProtocolByte.AddressFamily protocol =? AddressFamilyUNSPEC)
     && negb (ProtocolByte.AddressFamily protocol =? AddressFamilyINET)
     && negb (ProtocolByte.AddressFamily protocol =? AddressFamilyINET6)
     && negb (ProtocolByte.AddressFamily protocol =? AddressFamilyUNIX) then
    (Return m (Some (UnsupportedAddressFamily
                       (ProtocolByte.AddressFamily protocol))), h, r)
  else
  if negb (ProtocolByte.TransportProtocol protocol =? TransportProtocolUNSPEC)
     && negb (ProtocolByte.TransportProtocol protocol =? TransportProtocolSTREAM)
     && negb (ProtocolByte.TransportProtocol protocol =? TransportProtocolDGRAM) then
    (Return m (Some (UnsupportedTransportProtocol
                       (ProtocolByte.TransportProtocol protocol))), h, r)
  else
  let '(addressLength, k, err, r) := AddressLength.ReadFrom 0 r in
  let m := m + k in
  match err with
  | Some e => (Return m (Some e), h, r)
  | None =>
  (* If there is no address data (e.g. in cases when command is LOCAL),
     let's just finish reading and return *)
  if addressLength =? 0 then (Return m None, h, r)
  else
  (* TCP over IPv4 *)
  if ProtocolByte.eqb protocol (pb AddressFamilyINET TransportProtocolSTREAM) then
    let '(result, n, err, r) := readIPsAndPorts r 4 in
    let m := m + n in
    match err, result with
    | Some e, _ => (Return m (Some e), h, r)
    | None, Some {| sourceIP := Some sip; destinationIP := Some dip;
                    sourcePort := sport; destinationPort := dport |} =>
        (Return m None,
         set_ProxyAddress h (IPv4Address (net.TCPAddr sip sport EmptyString)
                                         (net.TCPAddr dip dport EmptyString)), r)
    | None, _ => (Panic nil_dereference, h, r)
    end
  (* UDP over IPv4 *)
  else if ProtocolByte.eqb protocol (pb AddressFamilyINET TransportProtocolDGRAM) then
    let '(result, n, err, r) := readIPsAndPorts r 4 in
    let m := m + n in
    match err, result with
    | Some e, _ => (Return m (Some e), h, r)
    | None, Some {| sourceIP := Some sip; destinationIP := Some dip;
                    sourcePort := sport; destinationPort := dport |} =>
        (Return m None,
         set_ProxyAddress h (IPv4Address (net.UDPAddr sip sport EmptyString)
                                         (net.UDPAddr dip dport EmptyString)), r)
    | None, _ => (Panic nil_dereference, h, r)
    end
  (* TCP over IPv6 *)
  else if ProtocolByte.eqb protocol (pb AddressFamilyINET6 TransportProtocolSTREAM) then
    let '(result, n, err, r) := readIPsAndPorts r 16 in
    let m := m + n in
    match err, result with
    | Some e, _ => (Return m (Some e), h, r)
    | None, Some {| sourceIP := Some sip; destinationIP := Some dip;
                    sourcePort := sport; destinationPort := dport |} =>
        (Return m None,
         set_ProxyAddress h (IPv6Address (net.TCPAddr sip sport EmptyString)
                                         (net.TCPAddr dip dport EmptyString)), r)
    | None, _ => (Panic nil_dereference, h, r)
    end
  (* UDP over IPv6 *)
  else if ProtocolByte.eqb protocol (pb AddressFamilyINET6 TransportProtocolDGRAM) then
    let '(result, n, err, r) := readIPsAndPorts r 16 in
    let m := m + n in
    match err, result with
    | Some e, _ => (Return m (Some e), h, r)
    | None, Some {| sourceIP := Some sip; destinationIP := Some dip;
                    sourcePort := sport; destinationPort := dport |} =>
        (Return m None,
         set_ProxyAddress h (IPv6Address (net.UDPAddr sip sport EmptyString)
                                         (net.UDPAddr dip dport EmptyString)), r)
    | None, _ => (Panic nil_dereference, h, r)
    end
  (* UNIX stream *)
  else if ProtocolByte.eqb protocol (pb AddressFamilyUNIX TransportProtocolSTREAM) then
    let '(result, n, err, r) := readUnix r in
    let m := m + n in
    match err, result with
    | Some e, _ => (Return m (Some e), h, r)
    | None, Some result =>
        (Return m None,
         set_ProxyAddress h
           (UnixAddr {| net.Name := string_of_bytes (SourceAddr result);
                        net.Net := "unixpacket" |}
                     {| net.Name := string_of_bytes (DestinationAddr result);
                        net.Net := "unixpacket" |}), r)
    | None, None => (Panic nil_dereference, h, r)
    end
  (* UNIX datagram *)
  else if ProtocolByte.eqb protocol (pb AddressFamilyUNIX TransportProtocolDGRAM) then
    let '(result, n, err, r) := readUnix r in
    let m := m + n in
    match err, result with
    | Some e, _ => (Return m (Some e), h, r)
    | None, Some result =>
        (Return m None,
         set_ProxyAddress h
           (UnixAddr {| net.Name := string_of_bytes (SourceAddr result);
                        net.Net := "unixgram" |}
                     {| net.Name := string_of_bytes (DestinationAddr result);
                        net.Net := "unixgram" |}), r)
    | None, None => (Panic nil_dereference, h, r)
    end
  (* If protocol is not supported, read remaining bytes and return an error *)
  else
    (* data := make([]byte, addressLength): a negative length panics *)
    if addressLength <? 0 then (Panic makeslice_len, h, r)
    else
    let '(data, n, err, r) := call_Read r (make (Z.to_nat addressLength)) in
    let m := m + n in
    match err with
    | Some e => (Return m (Some e), h, r)
    | None =>
        (Return m (Some (TransportProtocolError
                           (ProtocolByte.TransportProtocol protocol)
                           (ProtocolByte.AddressFamily protocol)
                           addressLength)), h, r)
    end
  end end end end.

Definition WriteTo {W} `{Writer W} (h : t) (w : W) : outcome * W :=
  let m := 0 in
  let '(n, err, w) := Write w ProtocolSignature in
  let m := m + n in
  match err with
  | Some e => (Return m (Some e), w)
  | None =>
  let version := {| VersionByte.ProtocolVersion := ProtocolVersion;
                    VersionByte.Command := Command h |} in
  let '(k, err, w) := VersionByte.WriteTo version w in
  let m := m + k in
  match err with
  | Some e => (Return m (Some e), w)
  | None =>
  (* h.ProxyAddress.getSignature(): a method call on the interface value *)
  match ProxyAddress h with
  | None => (Panic nil_dereference, w)
  | Some a =>
  match getSignature a with
  | Panicked msg => (Panic msg, w)
  | Ok signature =>
  let '(k, err, w) := ProtocolByte.WriteTo signature w in
  let m := m + k in
  match err with
  | Some e => (Return m (Some e), w)
  | None =>
  (* We should write address data only if command is PROXY.
     In case if command is LOCAL, address length is written as zero,
     and no address follows it *)
  if Command h =? CommandPROXY then
    let '(k, err, w) := AddressLength.WriteTo (getLength a) w in
    let m := m + k in
    match err with
    | Some e => (Return m (Some e), w)
    | None =>
    match ProxyAddress_WriteTo a w with
    | (Panic msg, w) => (Panic msg, w)
    | (Return k err, w) =>
    let m := m + k in
    match err with
    | Some e => (Return m (Some e), w)
    | None => (Return m None, w)
    end end end
  else
    let '(k, err, w) := AddressLength.WriteTo 0 w in
    let m := m + k in
    match err with
    | Some e => (Return m (Some e), w)
    | None => (Return m None, w)
    end
  end end end end end.

End Header.

(** ** The vectors and the calls of the package's tests *)

(** [encodedHeaders] of the test file. *)
Definition encodedHeaders : list (list Z) :=
  [ (* Normal IPv4 TCP header *)
    [0x0d; 0x0a; 0x0d; 0x0a; 0x00; 0x0d; 0x0a; 0x51; 0x55; 0x49; 0x54; 0x0a;
     0x21; 0x11; 0x00; 0x0c;
     0x7f; 0x00; 0x00; 0x01; 0x7f; 0x00; 0x00; 0x01; 0xa5; 0xce; 0x05; 0x3a];
    (* Header with broken signature *)
    [0x00; 0x00; 0x00; 0x00; 0x00; 0x00; 0x00; 0x00; 0x55; 0x49; 0x54; 0x0a;
     0x21; 0x11; 0x00; 0x0c;
     0x7f; 0x00; 0x00; 0x01; 0x7f; 0x00; 0x00; 0x01; 0xa5; 0xce; 0x05; 0x3a] ].

(** The first test vector, a normal IPv4 TCP header. *)
Definition canonical_vector : list Z := nth 0 encodedHeaders [].

(** [&net.TCPAddr{IP: []byte{127, 0, 0, 1}, Port: port}]. *)
Definition localhost (port : Z) : net.Addr :=
  net.TCPAddr [127; 0; 0; 1] port EmptyString.

(** [bytes.NewReader(data)] followed by [header.ReadFrom] on a fresh header,
    as [TestHeader_ReadFrom] does. *)
Definition decode (data : list Z) : outcome * Header.t * bytes.Reader :=
  Header.ReadFrom Header.zero (bytes.NewReader data).

(** [header.WriteTo] on an empty [bytes.Buffer], as [TestHeader_WriteTo] does. *)
Definition encode (h : Header.t) : outcome * bytes.Buffer :=
  Header.WriteTo h (bytes.NewBuffer []).

(** ** Vocabulary of the properties *)

(** The header [Header{Command: CommandPROXY, ProxyAddress: a}]. *)
Definition PROXY (a : ProxyAddress) : Header.t :=
  {| Header.Command := CommandPROXY; Header.ProxyAddress := Some a |}.

(** A port that [uint16(Port)] leaves unchanged. *)
Definition port_ok (p : Z) : bool := (0 <=? p) && (p <? 65536).

(** A TCP or UDP endpoint with an IP of [n] bytes, a 16-bit port and no
    zone. *)
Definition ip_ok (n : nat) (addr : net.Addr) : bool :=
  match addr with
  | net.TCPAddr ip port zone | net.UDPAddr ip port zone =>
      (length ip =? n)%nat && port_ok port && String.eqb zone EmptyString
  | _ => false
  end.

(** Both endpoints are TCP or both are UDP. *)
Definition same_transport (src dst : net.Addr) : bool :=
  match src, dst with
  | net.TCPAddr _ _ _, net.TCPAddr _ _ _ => true
  | net.UDPAddr _ _ _, net.UDPAddr _ _ _ => true
  | _, _ => false
  end.

(** A UNIX endpoint of the given network whose name fills the 108-byte
    block. *)
Definition unix_ok (network : string) (a : net.UnixAddr) : bool :=
  (String.length (net.Name a) =? 108)%nat && String.eqb (net.Net a) network.

(** The address variants in the form [Header.ReadFrom] builds them: both
    endpoints of the same kind; IPs of exactly 4 (IPv4Address) or 16
    (IPv6Address) bytes, ports in 0..65535 and no zone; UNIX names of exactly
    108 bytes with the network "unixpacket" or "unixgram" on both sides. *)
Definition wire_form (a : ProxyAddress) : bool :=
  match a with
  | IPv4Address src dst => ip_ok 4 src && ip_ok 4 dst && same_transport src dst
  | IPv6Address src dst => ip_ok 16 src && ip_ok 16 dst && same_transport src dst
  | UnixAddr src dst =>
      (unix_ok "unixpacket" src && unix_ok "unixpacket" dst)
      || (unix_ok "unixgram" src && unix_ok "unixgram" dst)
  end.

(** The bytes [encode] produces for a PROXY header with an IP address
    variant whose two IPs are written as [s] and [d]. *)
Definition ip_wire (protocol length : Z) (s d : list Z) (sp dp : Z) : list Z :=
  ProtocolSignature ++ 0x21 :: protocol :: 0x00 :: length ::
  s ++ d ++ binary.BigEndian.PutUint16 (uint16_of_int sp)
    ++ binary.BigEndian.PutUint16 (uint16_of_int dp).

(** The bytes [encode] produces for a PROXY header with a UNIX address
    variant. *)
Definition unix_wire (protocol : Z) (src dst : net.UnixAddr) : list Z :=
  ProtocolSignature ++ 0x21 :: protocol :: 0x00 :: 0xD8 ::
  copy (make 108) (bytes_of_string (net.Name src))
  ++ copy (make 108) (bytes_of_string (net.Name dst)).

(** A PROXY header for a UNIX stream connection between two short paths. *)
Definition short_unix_header : Header.t :=
  PROXY (UnixAddr {| net.Name := "/tmp/a"; net.Net := "unixpacket" |}
                  {| net.Name := "/tmp/b"; net.Net := "unixpacket" |}).

(** A chunked source none of whose limits can cut a read of the decoder
    short, and the in-memory reader on the same bytes. *)
Definition never_short (r1 : ShortReader) (r2 : bytes.Reader) : Prop :=
  pending r1 = bytes.unread r2
  /\ Forall (fun c => 32767 <= Z.of_nat c) (limits r1).

(** Between [r] and [r'] the source, whose undelivered bytes are given by
    [remaining], delivered exactly [m] bytes. *)
Definition taken {R : Type} (remaining : R -> list Z) (r r' : R) (m : Z) : Prop :=
  exists c : list Z, remaining r = c ++ remaining r' /\ m = Z.of_nat (length c).

(** Two calls on sources related by [sim] give the same values and leave
    related sources. *)
Definition alike {A R1 R2 : Type} (sim : R1 -> R2 -> Prop)
  (x : A * R1) (y : A * R2) : Prop :=
  fst x = fst y /\ sim (snd x) (snd y).

(** [&net.UDPAddr{..}] when [udp], else [&net.TCPAddr{..}]. *)
Definition endpoint (udp : bool) (ip : list Z) (port : Z) (zone : string)
  : net.Addr :=
  if udp then net.UDPAddr ip port zone else net.TCPAddr ip port zone.

(** An endpoint that has a port: a TCP or a UDP address. *)
Definition has_port (addr : net.Addr) : bool :=
  match addr with
  | net.TCPAddr _ _ _ | net.UDPAddr _ _ _ => true
  | _ => false
  end.

(** The headers [Header.WriteTo] can write, among those whose endpoints are
    not nil pointers: an address is attached and, for the command PROXY, the
    endpoints of an IP variant both have a port; for any other command, the
    source endpoint has a protocol byte. *)
Definition encodable (h : Header.t) : bool :=
  match Header.ProxyAddress h with
  | None => false
  | Some a =>
      if Header.Command h =? CommandPROXY then
        match a with
        | IPv4Address src dst | IPv6Address src dst => has_port src && has_port dst
        | UnixAddr _ _ => true
        end
      else
        match getSignature a with
        | Ok _ => true
        | Panicked _ => false
        end
  end.

(** The shape of what [readIPsAndPorts] returns with its result on a source
    of bytes. *)
Definition ip_result_ok (n : nat) (result : option ipReadResult) : Prop :=
  match result with
  | Some res =>
      exists sip dip,
        sourceIP res = Some sip /\ destinationIP res = Some dip
        /\ length sip = n /\ length dip = n
        /\ 0 <= sourcePort res < 65536 /\ 0 <= destinationPort res < 65536
  | None => True
  end.

(** The bytes of a call that reach the buffer, and their number. *)
Definition received (c : call) : list Z := firstn (asked c) (delivered c).
Definition count (c : call) : Z := Z.of_nat (length (received c)).

(** The buffer of a call afterwards: what was received, followed by the
    zeros [make] had put there. *)
Definition buffer (c : call) : list Z :=
  received c ++ repeat 0 (asked c - length (received c)).

Definition total (l : list call) : Z :=
  fold_right (fun c acc => count c + acc) 0 l.

(** The call reported no error. *)
Definition quiet (c : call) : bool :=
  match reported c with None => true | Some _ => false end.

Fixpoint prefix_of (l p : list nat) : bool :=
  match l, p with
  | [], _ => true
  | x :: l', y :: p' => Nat.eqb x y && prefix_of l' p'
  | _ :: _, [] => false
  end.

(** The buffer lengths of a decode that reads every field once, in the order
    of the wire, as far as it gets: 12, 1, 1, 2 and then 4, 4, 2, 2 or
    16, 16, 2, 2 or 108, 108 or one read of the declared length. *)
Definition one_read_per_field (sizes : list nat) : bool :=
  negb (length sizes =? 0)%nat
  && (((length sizes =? 5)%nat && prefix_of (firstn 4 sizes) [12; 1; 1; 2])
      || prefix_of sizes [12; 1; 1; 2; 4; 4; 2; 2]
      || prefix_of sizes [12; 1; 1; 2; 16; 16; 2; 2]
      || prefix_of sizes [12; 1; 1; 2; 108; 108])%nat.

(** The default of [last] on a record of calls. *)
Definition no_call : call := {| asked := 0; delivered := []; reported := None |}.

(** What a decode decided, apart from the count. *)
Definition verdict (o : outcome) : option error + string :=
  match o with
  | Return _ err => inl err
  | Panic msg => inr msg
  end.

(** * Properties *)

(** ** Slices and in-memory sources *)

Lemma Equal_spec (a b : list Z) : bytes.Equal a b = true <-> a = b.
Proof.
  revert b; induction a as [|x a IH]; intros [|y b]; simpl; split;
    try congruence; try discriminate.
  - intros E. apply andb_true_iff in E as [E1 E2].
    apply Z.eqb_eq in E1. apply IH in E2. congruence.
  - intros E. injection E as -> ->. rewrite Z.eqb_refl. simpl. now apply IH.
Qed.

Lemma make_length (n : nat) : length (make n) = n.
Proof. apply repeat_length. Qed.

Lemma copy_make (n : nat) (p : list Z) : length p = n -> copy (make n) p = p.
Proof.
  intros <-. unfold copy. rewrite make_length, firstn_all.
  rewrite skipn_all2 by (rewrite make_length; lia). apply app_nil_r.
Qed.

(** One read from memory that finds at least the bytes it asks for. *)
Lemma call_Read_memory (s : list Z) (n : nat) :
  (0 < n <= length s)%nat ->
  call_Read (bytes.NewReader s) (make n)
  = (firstn n s, Z.of_nat n, None, bytes.NewReader (skipn n s)).
Proof.
  intros Hn. unfold call_Read, Read, bytes_Reader, bytes.Reader_Read.
  rewrite make_length. simpl bytes.unread.
  destruct s as [|x s]; [simpl in Hn; lia|].
  rewrite firstn_firstn, Nat.min_id.
  rewrite copy_make, length_firstn by (rewrite length_firstn; lia).
  now rewrite Nat.min_l by lia.
Qed.

Lemma firstn_app_exact (p rest : list Z) : firstn (length p) (p ++ rest) = p.
Proof.
  rewrite firstn_app, firstn_all, Nat.sub_diag. simpl. apply app_nil_r.
Qed.

Lemma skipn_app_exact (p rest : list Z) : skipn (length p) (p ++ rest) = rest.
Proof. now rewrite skipn_app, skipn_all, Nat.sub_diag. Qed.

Lemma call_Read_app (p rest : list Z) (n : nat) :
  length p = n -> (0 < n)%nat ->
  call_Read (bytes.NewReader (p ++ rest)) (make n)
  = (p, Z.of_nat n, None, bytes.NewReader rest).
Proof.
  intros Hp Hn. rewrite call_Read_memory by (rewrite length_app; lia).
  subst n. now rewrite firstn_app_exact, skipn_app_exact.
Qed.

Lemma VersionByte_ReadFrom_cons (v : VersionByte.t) (b : Z) (rest : list Z) :
  VersionByte.ReadFrom v (bytes.NewReader (b :: rest))
  = ({| VersionByte.ProtocolVersion := Z.shiftr b 4;
        VersionByte.Command := Z.land b 15 |}, 1, None, bytes.NewReader rest).
Proof. reflexivity. Qed.

Lemma ProtocolByte_ReadFrom_cons (p : ProtocolByte.t) (b : Z) (rest : list Z) :
  ProtocolByte.ReadFrom p (bytes.NewReader (b :: rest))
  = (Header.pb (Z.shiftr b 4) (Z.land b 15), 1, None, bytes.NewReader rest).
Proof. reflexivity. Qed.

Lemma AddressLength_ReadFrom_cons (a b0 b1 : Z) (rest : list Z) :
  AddressLength.ReadFrom a (bytes.NewReader (b0 :: b1 :: rest))
  = (int16_of_uint16 (binary.BigEndian.Uint16 [b0; b1]), 2, None,
     bytes.NewReader rest).
Proof. reflexivity. Qed.

Lemma readPort_cons (b0 b1 : Z) (rest : list Z) :
  readPort (bytes.NewReader (b0 :: b1 :: rest))
  = (binary.BigEndian.Uint16 [b0; b1], 2, None, bytes.NewReader rest).
Proof. reflexivity. Qed.

Lemma readIP_app (ip rest : list Z) (n : nat) :
  length ip = n -> (0 < n)%nat ->
  readIP (bytes.NewReader (ip ++ rest)) n
  = (Some ip, Z.of_nat n, None, bytes.NewReader rest).
Proof. intros Hl Hn. unfold readIP. now rewrite call_Read_app. Qed.

Lemma readIPsAndPorts_app (sip dip : list Z) (a b c d : Z) (rest : list Z) (n : nat) :
  length sip = n -> length dip = n -> (0 < n)%nat ->
  readIPsAndPorts (bytes.NewReader (sip ++ dip ++ a :: b :: c :: d :: rest)) n
  = (Some {| sourceIP := Some sip; destinationIP := Some dip;
             sourcePort := binary.BigEndian.Uint16 [a; b];
             destinationPort := binary.BigEndian.Uint16 [c; d] |},
     2 * Z.of_nat n + 4, None, bytes.NewReader rest).
Proof.
  intros Hs Hd Hn. unfold readIPsAndPorts.
  rewrite !readIP_app by assumption. cbv beta iota zeta.
  rewrite !readPort_cons. cbv beta iota zeta.
  do 3 f_equal. lia.
Qed.

Lemma readUnix_app (src dst rest : list Z) :
  length src = 108%nat -> length dst = 108%nat ->
  readUnix (bytes.NewReader (src ++ dst ++ rest))
  = (Some {| SourceAddr := src; DestinationAddr := dst |}, 216, None,
     bytes.NewReader rest).
Proof.
  intros Hs Hd. unfold readUnix.
  rewrite !call_Read_app by (assumption || lia). reflexivity.
Qed.

Lemma skipn_repeat (x : Z) (k n : nat) : skipn k (repeat x n) = repeat x (n - k).
Proof.
  revert k; induction n as [|n IH]; intros [|k]; simpl; auto.
Qed.

(** A buffer of 12 bytes whose last places were left zero is not the
    signature, which ends in 0x0A. *)
Lemma padded_is_not_signature (data : list Z) :
  (length data < 12)%nat ->
  bytes.Equal (data ++ repeat 0 (12 - length data)) ProtocolSignature = false.
Proof.
  intros Hlen.
  destruct (bytes.Equal (data ++ repeat 0 (12 - length data)) ProtocolSignature)
    eqn:E; [|reflexivity].
  apply Equal_spec in E.
  assert (H11 : nth 11 (data ++ repeat 0 (12 - length data)) 0 = 0).
  { rewrite app_nth2 by lia. apply nth_repeat. }
  rewrite E in H11. discriminate H11.
Qed.

(** ** Decoding from memory: the fixed fields *)

Ltac reduce_reads := cbv beta iota zeta.

(** The first read of [Header.ReadFrom] on a source that starts with the
    signature. *)
Ltac read_signature :=
  unfold Header.ReadFrom;
  rewrite (call_Read_app ProtocolSignature) by (reflexivity || (simpl; lia));
  reduce_reads;
  replace (bytes.Equal ProtocolSignature ProtocolSignature) with true
    by reflexivity;
  cbn [negb].

Ltac read_field :=
  first [ rewrite VersionByte_ReadFrom_cons
        | rewrite ProtocolByte_ReadFrom_cons
        | rewrite AddressLength_ReadFrom_cons ];
  reduce_reads;
  cbn [VersionByte.ProtocolVersion VersionByte.Command
       ProtocolByte.AddressFamily ProtocolByte.TransportProtocol Header.pb].

Lemma eqb_neq_false (x y : Z) : x <> y -> (x =? y) = false.
Proof. apply Z.eqb_neq. Qed.

Lemma ReadFrom_bad_version (h : Header.t) (vb : Z) (rest : list Z) :
  Z.shiftr vb 4 <> 2 ->
  Header.ReadFrom h (bytes.NewReader (ProtocolSignature ++ vb :: rest))
  = (Return 13 (Some (UnsupportedProtocolVersion 2 (Z.shiftr vb 4))), h,
     bytes.NewReader rest).
Proof.
  intros Hv. read_signature. read_field.
  unfold ProtocolVersion. now rewrite (eqb_neq_false _ _ Hv).
Qed.

Lemma ReadFrom_bad_command (h : Header.t) (vb : Z) (rest : list Z) :
  Z.shiftr vb 4 = 2 -> Z.land vb 15 <> 0 -> Z.land vb 15 <> 1 ->
  Header.ReadFrom h (bytes.NewReader (ProtocolSignature ++ vb :: rest))
  = (Return 13 (Some (UnsupportedCommand (Z.land vb 15))), h,
     bytes.NewReader rest).
Proof.
  intros Hv H0 H1. read_signature. read_field.
  rewrite Hv. unfold CommandLOCAL, CommandPROXY.
  now rewrite (eqb_neq_false _ _ H0), (eqb_neq_false _ _ H1).
Qed.

Lemma command_ok (c : Z) :
  c = 0 \/ c = 1 -> negb (c =? CommandLOCAL) && negb (c =? CommandPROXY) = false.
Proof. now intros [-> | ->]. Qed.

Lemma ReadFrom_bad_family (h : Header.t) (vb pb : Z) (rest : list Z) :
  Z.shiftr vb 4 = 2 -> Z.land vb 15 = 0 \/ Z.land vb 15 = 1 ->
  ~ 0 <= Z.shiftr pb 4 <= 3 ->
  Header.ReadFrom h (bytes.NewReader (ProtocolSignature ++ vb :: pb :: rest))
  = (Return 14 (Some (UnsupportedAddressFamily (Z.shiftr pb 4))),
     Header.set_Command h (Z.land vb 15), bytes.NewReader rest).
Proof.
  intros Hv Hc Hf. read_signature. read_field.
  rewrite Hv, (command_ok _ Hc). cbn [Z.eqb negb Pos.eqb]. read_field.
  unfold AddressFamilyUNSPEC, AddressFamilyINET, AddressFamilyINET6,
    AddressFamilyUNIX.
  rewrite !eqb_neq_false by lia. reflexivity.
Qed.

Lemma family_ok (f : Z) :
  0 <= f <= 3 ->
  negb (f =? AddressFamilyUNSPEC) && negb (f =? AddressFamilyINET)
  && negb (f =? AddressFamilyINET6) && negb (f =? AddressFamilyUNIX) = false.
Proof.
  intros Hf. assert (f = 0 \/ f = 1 \/ f = 2 \/ f = 3) as [->|[->|[->| ->]]] by lia;
    reflexivity.
Qed.

Lemma transport_ok (p : Z) :
  0 <= p <= 2 ->
  negb (p =? TransportProtocolUNSPEC) && negb (p =? TransportProtocolSTREAM)
  && negb (p =? TransportProtocolDGRAM) = false.
Proof.
  intros Hp. assert (p = 0 \/ p = 1 \/ p = 2) as [->|[->| ->]] by lia;
    reflexivity.
Qed.

Lemma ReadFrom_bad_transport (h : Header.t) (vb pb : Z) (rest : list Z) :
  Z.shiftr vb 4 = 2 -> Z.land vb 15 = 0 \/ Z.land vb 15 = 1 ->
  0 <= Z.shiftr pb 4 <= 3 -> ~ 0 <= Z.land pb 15 <= 2 ->
  Header.ReadFrom h (bytes.NewReader (ProtocolSignature ++ vb :: pb :: rest))
  = (Return 14 (Some (UnsupportedTransportProtocol (Z.land pb 15))),
     Header.set_Command h (Z.land vb 15), bytes.NewReader rest).
Proof.
  intros Hv Hc Hf Ht. read_signature. read_field.
  rewrite Hv, (command_ok _ Hc). cbn [Z.eqb negb Pos.eqb]. read_field.
  rewrite (family_ok _ Hf).
  unfold TransportProtocolUNSPEC, TransportProtocolSTREAM, TransportProtocolDGRAM.
  rewrite !eqb_neq_false by lia. reflexivity.
Qed.

(** ** Decoding from memory: the address block *)

(** Evaluation of the comparisons between known field values. *)
Ltac compare_fields :=
  cbv [ProtocolByte.eqb Header.pb ProtocolByte.AddressFamily
       ProtocolByte.TransportProtocol ProtocolVersion CommandLOCAL CommandPROXY
       AddressFamilyUNSPEC AddressFamilyINET AddressFamilyINET6
       AddressFamilyUNIX TransportProtocolUNSPEC TransportProtocolSTREAM
       TransportProtocolDGRAM Z.eqb Pos.eqb andb negb].

(** The four fixed fields of a header that passes every check and announces a
    payload: signature, version 2 with a known command ([Hv], [Hc]), the
    protocol byte with family [Hf] and transport [Ht], a length that is not
    zero ([Hl]). *)
Ltac read_fixed_fields Hv Hc Hf Ht Hl :=
  read_signature; read_field; rewrite Hv, (command_ok _ Hc);
  read_field; rewrite Hf, Ht;
  read_field; rewrite (eqb_neq_false _ _ Hl);
  compare_fields.

Section RecognisedPair.

Variables (h : Header.t) (vb pb b0 b1 : Z) (rest : list Z).
Hypothesis Hv : Z.shiftr vb 4 = 2.
Hypothesis Hc : Z.land vb 15 = 0 \/ Z.land vb 15 = 1.
Hypothesis Hl : int16_of_uint16 (binary.BigEndian.Uint16 [b0; b1]) <> 0.

Let decoded (a : ProxyAddress) : Header.t :=
  {| Header.Command := Z.land vb 15; Header.ProxyAddress := Some a |}.

Ltac read_ip_block Hf Ht Hs Hd :=
  read_fixed_fields Hv Hc Hf Ht Hl;
  rewrite readIPsAndPorts_app by (assumption || lia);
  reflexivity.

Ltac read_unix_block Hf Ht Hs Hd :=
  read_fixed_fields Hv Hc Hf Ht Hl;
  rewrite readUnix_app by assumption;
  reflexivity.

Section IP.

Variables (sip dip : list Z) (a b c d : Z).

Let input : bytes.Reader :=
  bytes.NewReader (ProtocolSignature ++ vb :: pb :: b0 :: b1 ::
                   sip ++ dip ++ a :: b :: c :: d :: rest).
Let sport : Z := binary.BigEndian.Uint16 [a; b].
Let dport : Z := binary.BigEndian.Uint16 [c; d].

Lemma ReadFrom_INET_STREAM :
  Z.shiftr pb 4 = 1 -> Z.land pb 15 = 1 ->
  length sip = 4%nat -> length dip = 4%nat ->
  Header.ReadFrom h input
  = (Return 28 None,
     decoded (IPv4Address (net.TCPAddr sip sport EmptyString)
                          (net.TCPAddr dip dport EmptyString)),
     bytes.NewReader rest).
Proof. intros Hf Ht Hs Hd. subst input. read_ip_block Hf Ht Hs Hd. Qed.

Lemma ReadFrom_INET_DGRAM :
  Z.shiftr pb 4 = 1 -> Z.land pb 15 = 2 ->
  length sip = 4%nat -> length dip = 4%nat ->
  Header.ReadFrom h input
  = (Return 28 None,
     decoded (IPv4Address (net.UDPAddr sip sport EmptyString)
                          (net.UDPAddr dip dport EmptyString)),
     bytes.NewReader rest).
Proof. intros Hf Ht Hs Hd. subst input. read_ip_block Hf Ht Hs Hd. Qed.

Lemma ReadFrom_INET6_STREAM :
  Z.shiftr pb 4 = 2 -> Z.land pb 15 = 1 ->
  length sip = 16%nat -> length dip = 16%nat ->
  Header.ReadFrom h input
  = (Return 52 None,
     decoded (IPv6Address (net.TCPAddr sip sport EmptyString)
                          (net.TCPAddr dip dport EmptyString)),
     bytes.NewReader rest).
Proof. intros Hf Ht Hs Hd. subst input. read_ip_block Hf Ht Hs Hd. Qed.

Lemma ReadFrom_INET6_DGRAM :
  Z.shiftr pb 4 = 2 -> Z.land pb 15 = 2 ->
  length sip = 16%nat -> length dip = 16%nat ->
  Header.ReadFrom h input
  = (Return 52 None,
     decoded (IPv6Address (net.UDPAddr sip sport EmptyString)
                          (net.UDPAddr dip dport EmptyString)),
     bytes.NewReader rest).
Proof. intros Hf Ht Hs Hd. subst input. read_ip_block Hf Ht Hs Hd. Qed.

End IP.

Section Unix.

Variables (src dst : list Z).

Let input : bytes.Reader :=
  bytes.NewReader (ProtocolSignature ++ vb :: pb :: b0 :: b1 ::
                   src ++ dst ++ rest).

Let unix (name : list Z) (network : string) : net.UnixAddr :=
  {| net.Name := string_of_bytes name; net.Net := network |}.

Lemma ReadFrom_UNIX_STREAM :
  Z.shiftr pb 4 = 3 -> Z.land pb 15 = 1 ->
  length src = 108%nat -> length dst = 108%nat ->
  Header.ReadFrom h input
  = (Return 232 None,
     decoded (UnixAddr (unix src "unixpacket") (unix dst "unixpacket")),
     bytes.NewReader rest).
Proof. intros Hf Ht Hs Hd. subst input. read_unix_block Hf Ht Hs Hd. Qed.

Lemma ReadFrom_UNIX_DGRAM :
  Z.shiftr pb 4 = 3 -> Z.land pb 15 = 2 ->
  length src = 108%nat -> length dst = 108%nat ->
  Header.ReadFrom h input
  = (Return 232 None,
     decoded (UnixAddr (unix src "unixgram") (unix dst "unixgram")),
     bytes.NewReader rest).
Proof. intros Hf Ht Hs Hd. subst input. read_unix_block Hf Ht Hs Hd. Qed.

End Unix.

End RecognisedPair.

(** ** Decoding from memory: pairs without a payload layout *)

Section UnhandledPair.

Variables (h : Header.t) (vb pb b0 b1 : Z).
Hypothesis Hv : Z.shiftr vb 4 = 2.
Hypothesis Hc : Z.land vb 15 = 0 \/ Z.land vb 15 = 1.
Hypothesis Hf : 0 <= Z.shiftr pb 4 <= 3.
Hypothesis Ht : 0 <= Z.land pb 15 <= 2.
Hypothesis Hpair : Z.shiftr pb 4 = 0 \/ Z.land pb 15 = 0.

Let addressLength : Z := int16_of_uint16 (binary.BigEndian.Uint16 [b0; b1]).

(** The default branch of the [switch] is reached. *)
Ltac reach_default Hl :=
  let f := fresh "f" in
  let t := fresh "t" in
  let Ef := fresh "Ef" in
  let Et := fresh "Et" in
  remember (Z.shiftr pb 4) as f eqn:Ef;
  remember (Z.land pb 15) as t eqn:Et;
  symmetry in Ef, Et;
  assert ((f = 0 /\ (t = 0 \/ t = 1 \/ t = 2))
          \/ ((f = 1 \/ f = 2 \/ f = 3) /\ t = 0))
    as [[-> [-> | [-> | ->]]] | [[-> | [-> | ->]] ->]] by lia;
  read_fixed_fields Hv Hc Ef Et Hl.

Lemma ReadFrom_drain (payload rest : list Z) :
  0 < addressLength ->
  length payload = Z.to_nat addressLength ->
  Header.ReadFrom h
    (bytes.NewReader (ProtocolSignature ++ vb :: pb :: b0 :: b1 ::
                      payload ++ rest))
  = (Return (16 + addressLength)
       (Some (TransportProtocolError (Z.land pb 15) (Z.shiftr pb 4)
                                     addressLength)),
     Header.set_Command h (Z.land vb 15), bytes.NewReader rest).
Proof.
  intros Hpos Hlen.
  assert (Hl : addressLength <> 0) by lia.
  assert (Hge : (addressLength <? 0) = false) by (apply Z.ltb_ge; lia).
  subst addressLength.
  reach_default Hl;
    rewrite Hge, call_Read_app by (assumption || lia);
    reduce_reads; rewrite Z2Nat.id by lia; do 3 f_equal.
Qed.

Lemma ReadFrom_negative_length (rest : list Z) :
  addressLength < 0 ->
  Header.ReadFrom h
    (bytes.NewReader (ProtocolSignature ++ vb :: pb :: b0 :: b1 :: rest))
  = (Panic makeslice_len, Header.set_Command h (Z.land vb 15),
     bytes.NewReader rest).
Proof.
  intros Hneg.
  assert (Hl : addressLength <> 0) by lia.
  assert (Hlt : (addressLength <? 0) = true) by (apply Z.ltb_lt; lia).
  subst addressLength.
  reach_default Hl; now rewrite Hlt.
Qed.

End UnhandledPair.

(** ** The address length on the wire *)

Lemma testbit_byte_high (b n : Z) : 0 <= b < 256 -> 8 <= n -> Z.testbit b n = false.
Proof.
  intros Hb Hn. rewrite <- (Z.mod_small b (2 ^ 8)) by (change (2 ^ 8) with 256; lia).
  apply Z.mod_pow2_bits_high. lia.
Qed.

(** The big-endian value of two bytes. *)
Lemma Uint16_value (b0 b1 : Z) :
  0 <= b1 < 256 -> binary.BigEndian.Uint16 [b0; b1] = 256 * b0 + b1.
Proof.
  intros H1. unfold binary.BigEndian.Uint16. cbn [nth].
  pose proof (Z.add_lor_land b1 (Z.shiftl b0 8)) as Hsum.
  assert (Hland : Z.land b1 (Z.shiftl b0 8) = 0).
  { apply Z.bits_inj'. intros n Hn.
    rewrite Z.land_spec, Z.bits_0.
    destruct (Z.lt_ge_cases n 8) as [Hlt | Hge].
    - rewrite Z.shiftl_spec_low by assumption. apply andb_false_r.
    - now rewrite testbit_byte_high. }
  rewrite Hland in Hsum. rewrite Z.shiftl_mul_pow2 in * by lia.
  change (2 ^ 8) with 256 in *. lia.
Qed.

Lemma int16_of_uint16_high (x : Z) :
  32768 <= x < 65536 -> int16_of_uint16 x = x - 65536.
Proof.
  intros Hx. unfold int16_of_uint16.
  replace (x + 32768) with ((x - 32768) + 1 * 65536) by lia.
  rewrite Z.mod_add by lia. rewrite Z.mod_small; lia.
Qed.

Lemma int16_of_uint16_low (x : Z) :
  0 <= x < 32768 -> int16_of_uint16 x = x.
Proof.
  intros Hx. unfold int16_of_uint16. rewrite Z.mod_small; lia.
Qed.

(** Evaluation of the nibbles of known bytes. *)
Ltac eval_nibbles :=
  repeat match goal with
  | |- context [Z.shiftr ?a ?b] =>
      let v := eval vm_compute in (Z.shiftr a b) in
      change (Z.shiftr a b) with v
  | |- context [Z.land ?a ?b] =>
      let v := eval vm_compute in (Z.land a b) in
      change (Z.land a b) with v
  end.

(** A block of [2 * n + 4] bytes splits into two addresses of [n] bytes and
    four port bytes. *)
Lemma split_ip_block (n : nat) (payload : list Z) :
  length payload = (2 * n + 4)%nat ->
  exists sip dip a b c d,
    payload = sip ++ dip ++ [a; b; c; d] /\ length sip = n /\ length dip = n.
Proof.
  intros Hlen.
  exists (firstn n payload), (firstn n (skipn n payload)).
  assert (Htail : length (skipn n (skipn n payload)) = 4%nat)
    by (rewrite !length_skipn; lia).
  destruct (skipn n (skipn n payload)) as [|a [|b [|c [|d [|? ?]]]]] eqn:E;
    try discriminate.
  exists a, b, c, d. repeat split.
  - rewrite <- E, firstn_skipn, firstn_skipn. reflexivity.
  - rewrite length_firstn. lia.
  - rewrite length_firstn, length_skipn. lia.
Qed.

Lemma split_unix_block (payload : list Z) :
  length payload = 216%nat ->
  exists src dst,
    payload = src ++ dst /\ length src = 108%nat /\ length dst = 108%nat.
Proof.
  intros Hlen. exists (firstn 108 payload), (skipn 108 payload). repeat split.
  - now rewrite firstn_skipn.
  - rewrite length_firstn. lia.
  - rewrite length_skipn. lia.
Qed.

(** ** Encoding into memory *)

(** Unfolds a [WriteTo] on a [bytes.Buffer], whose writes never fail. *)
Ltac write_to_buffer :=
  cbv [Header.WriteTo ProxyAddress_WriteTo IPv4Address.WriteTo
       IPv6Address.WriteTo UnixAddr.WriteTo writePorts binary.Write
       VersionByte.WriteTo ProtocolByte.WriteTo AddressLength.WriteTo
       Write bytes_Buffer bytes.Buffer_Write bytes.Bytes
       VersionByte.ProtocolVersion VersionByte.Command
       Header.Command Header.ProxyAddress
       getSignature IPv4Address.getSignature IPv6Address.getSignature
       UnixAddr.getSignature getTransportProtocol
       ProtocolByte.AddressFamily ProtocolByte.TransportProtocol
       getLength IPv4Address.getLength IPv6Address.getLength
       UnixAddr.getLength addressToBytes getPort net.Name net.Net
       CommandPROXY CommandLOCAL Z.eqb Pos.eqb].

Lemma alignIP_4 (ip : list Z) : length ip = 4%nat -> skipn 12 (alignIP ip) = ip.
Proof.
  intros Hlen. unfold alignIP. rewrite Hlen. cbn [Nat.ltb Nat.leb Nat.sub make repeat].
  reflexivity.
Qed.

Lemma alignIP_16 (ip : list Z) : length ip = 16%nat -> alignIP ip = ip.
Proof. intros Hlen. unfold alignIP. now rewrite Hlen. Qed.

Lemma Uint16_PutUint16 (p : Z) :
  0 <= p < 65536 ->
  binary.BigEndian.Uint16 (binary.BigEndian.PutUint16 (uint16_of_int p)) = p.
Proof.
  intros Hp. unfold binary.BigEndian.PutUint16, uint16_of_int, byte_of.
  rewrite Uint16_value by (apply Z.mod_pos_bound; lia).
  rewrite (Z.mod_small p) by lia.
  rewrite Z.shiftr_div_pow2 by lia. change (2 ^ 8) with 256.
  rewrite (Z.mod_small (p / 256)).
  - pose proof (Z.div_mod p 256). lia.
  - split; [apply Z.div_pos; lia | apply Z.div_lt_upper_bound; lia].
Qed.

Lemma bytes_of_string_length (s : string) :
  length (bytes_of_string s) = String.length s.
Proof.
  unfold bytes_of_string. rewrite length_map.
  induction s as [|c s IH]; simpl; congruence.
Qed.

(** [string([]byte(s)) == s]. *)
Lemma string_of_bytes_of_string (s : string) :
  string_of_bytes (bytes_of_string s) = s.
Proof.
  unfold string_of_bytes, bytes_of_string. rewrite map_map.
  rewrite <- (string_of_list_ascii_of_string s) at 2. f_equal.
  rewrite <- (map_id (list_ascii_of_string s)) at 2.
  apply map_ext. intros c. now rewrite N2Z.id, ascii_N_embedding.
Qed.

(** A name of exactly 108 bytes survives the 108-byte block. *)
Lemma unix_block_name (s : string) :
  String.length s = 108%nat ->
  string_of_bytes (copy (make 108) (bytes_of_string s)) = s.
Proof.
  intros Hlen. rewrite copy_make by (now rewrite bytes_of_string_length).
  apply string_of_bytes_of_string.
Qed.

Lemma copy_make_length (n : nat) (p : list Z) : length (copy (make n) p) = n.
Proof.
  unfold copy. rewrite make_length, length_app, length_firstn, length_skipn,
    make_length. lia.
Qed.

(** [WriteTo] without an address: the signature and the version byte are
    written, then the method call on the nil interface panics. *)
Lemma WriteTo_no_address (c : Command) (w : bytes.Buffer) :
  Header.WriteTo {| Header.Command := c; Header.ProxyAddress := None |} w
  = (Panic nil_dereference,
     bytes.NewBuffer (bytes.Bytes w ++ ProtocolSignature
                      ++ [Z.lor 0x20 (byte_of c)])).
Proof. write_to_buffer. now rewrite <- app_assoc. Qed.

(** ** The bytes of an encoded PROXY header *)

Lemma ip_ok_inv (n : nat) (addr : net.Addr) :
  ip_ok n addr = true ->
  exists ip port,
    (addr = net.TCPAddr ip port EmptyString \/ addr = net.UDPAddr ip port EmptyString)
    /\ length ip = n /\ 0 <= port < 65536.
Proof.
  destruct addr as [ip port zone | ip port zone | u | ]; simpl; try discriminate;
    intros H; apply andb_true_iff in H as [H Hz];
    apply andb_true_iff in H as [Hl Hp];
    apply String.eqb_eq in Hz; apply Nat.eqb_eq in Hl;
    apply andb_true_iff in Hp as [Hp1 Hp2];
    apply Z.leb_le in Hp1; apply Z.ltb_lt in Hp2; subst zone;
    exists ip, port; auto.
Qed.

Lemma unix_ok_inv (network : string) (a : net.UnixAddr) :
  unix_ok network a = true ->
  String.length (net.Name a) = 108%nat /\ net.Net a = network.
Proof.
  unfold unix_ok. intros H. apply andb_true_iff in H as [Hl Hn].
  apply Nat.eqb_eq in Hl. apply String.eqb_eq in Hn. auto.
Qed.

Lemma Uint16_port_bytes (p : Z) :
  0 <= p < 65536 ->
  binary.BigEndian.Uint16
    [byte_of (Z.shiftr (uint16_of_int p) 8); byte_of (uint16_of_int p)] = p.
Proof. exact (Uint16_PutUint16 p). Qed.

Ltac encode_ip :=
  unfold encode, PROXY, ip_wire; write_to_buffer; f_equal;
  [ f_equal; change (length ProtocolSignature) with 12%nat; cbn [length]; lia
  | f_equal; now rewrite <- !app_assoc ].

Section EncodeIP.

Variables (s d : list Z) (sp dp : Z) (sz dz : string).

Lemma encode_IPv4_TCP :
  encode (PROXY (IPv4Address (net.TCPAddr s sp sz) (net.TCPAddr d dp dz)))
  = (Return (20 + Z.of_nat (length (skipn 12 (alignIP s)))
                + Z.of_nat (length (skipn 12 (alignIP d)))) None,
     bytes.NewBuffer (ip_wire 0x11 12 (skipn 12 (alignIP s))
                                      (skipn 12 (alignIP d)) sp dp)).
Proof. encode_ip. Qed.

Lemma encode_IPv4_UDP :
  encode (PROXY (IPv4Address (net.UDPAddr s sp sz) (net.UDPAddr d dp dz)))
  = (Return (20 + Z.of_nat (length (skipn 12 (alignIP s)))
                + Z.of_nat (length (skipn 12 (alignIP d)))) None,
     bytes.NewBuffer (ip_wire 0x12 12 (skipn 12 (alignIP s))
                                      (skipn 12 (alignIP d)) sp dp)).
Proof. encode_ip. Qed.

Lemma encode_IPv6_TCP :
  encode (PROXY (IPv6Address (net.TCPAddr s sp sz) (net.TCPAddr d dp dz)))
  = (Return (20 + Z.of_nat (length (alignIP s))
                + Z.of_nat (length (alignIP d))) None,
     bytes.NewBuffer (ip_wire 0x21 36 (alignIP s) (alignIP d) sp dp)).
Proof. encode_ip. Qed.

Lemma encode_IPv6_UDP :
  encode (PROXY (IPv6Address (net.UDPAddr s sp sz) (net.UDPAddr d dp dz)))
  = (Return (20 + Z.of_nat (length (alignIP s))
                + Z.of_nat (length (alignIP d))) None,
     bytes.NewBuffer (ip_wire 0x22 36 (alignIP s) (alignIP d) sp dp)).
Proof. encode_ip. Qed.

End EncodeIP.

Lemma encode_Unix (src dst : net.UnixAddr) :
  encode (PROXY (UnixAddr src dst))
  = (Return 232 None,
     bytes.NewBuffer
       (unix_wire (if String.eqb (net.Net src) "unixgram" then 0x32 else 0x31)
                  src dst)).
Proof.
  destruct src as [sname snet], dst as [dname dnet].
  unfold encode, PROXY, unix_wire. write_to_buffer.
  destruct (String.eqb snet "unixgram"); cbv beta iota; f_equal;
    f_equal; rewrite !copy_make_length; reflexivity.
Qed.

Ltac decode_ip_wire :=
  cbn [snd bytes.Bytes];
  unfold decode, ip_wire, binary.BigEndian.PutUint16; cbn [app].

(** ** What a decode takes from its source *)

Section Consumption.

Context {R : Type} {reader : Reader R}.

(** The bytes the source has not delivered yet. *)
Variable remaining : R -> list Z.

(** A read delivers a prefix of what remains, no longer than the buffer. *)
Hypothesis Read_takes :
  forall (r : R) (n : nat),
    remaining r = fst (fst (Read r n)) ++ remaining (snd (Read r n))
    /\ (length (fst (fst (Read r n))) <= n)%nat.

Lemma taken_refl (r : R) : taken remaining r r 0.
Proof. now exists []. Qed.

Lemma taken_trans (r r' r'' : R) (m m' : Z) :
  taken remaining r r' m -> taken remaining r' r'' m' ->
  taken remaining r r'' (m + m').
Proof.
  intros (c & Hc & ->) (c' & Hc' & ->). exists (c ++ c'). split.
  - now rewrite Hc, Hc', app_assoc.
  - rewrite length_app. lia.
Qed.

Lemma taken_skipn (r r' : R) (m : Z) :
  taken remaining r r' m ->
  0 <= m <= Z.of_nat (length (remaining r))
  /\ remaining r' = skipn (Z.to_nat m) (remaining r).
Proof.
  intros (c & Hc & ->). rewrite Hc, Nat2Z.id, skipn_app_exact, length_app.
  split; [lia | reflexivity].
Qed.

Lemma call_Read_taken (r : R) (buf : list Z) :
  taken remaining r (snd (call_Read r buf)) (snd (fst (fst (call_Read r buf)))).
Proof.
  unfold call_Read. destruct (Read_takes r (length buf)) as [Hrem Hlen].
  destruct (Read r (length buf)) as [[p e] r']. cbn [fst snd] in *.
  exists p. split; [assumption|]. now rewrite firstn_all2.
Qed.

(** Names the results of the next read of the goal and records what it
    took. *)
Ltac take lemma call :=
  let Ht := fresh "Ht" in
  pose proof lemma as Ht;
  destruct call as [[[? ?] [?|]] ?]; cbn [fst snd] in Ht;
  cbv beta iota zeta.

Ltac next_read :=
  match goal with
  | |- context [call_Read ?r ?buf] =>
      take (call_Read_taken r buf) (call_Read r buf)
  end.

Ltac taken_solve :=
  solve [ repeat first [ eassumption | apply taken_refl
                       | eapply taken_trans; [|eassumption] ] ].

Lemma VersionByte_ReadFrom_taken (v : VersionByte.t) (r : R) :
  taken remaining r (snd (VersionByte.ReadFrom v r))
          (snd (fst (fst (VersionByte.ReadFrom v r)))).
Proof. unfold VersionByte.ReadFrom. next_read; cbn [fst snd]; taken_solve. Qed.

Lemma ProtocolByte_ReadFrom_taken (p : ProtocolByte.t) (r : R) :
  taken remaining r (snd (ProtocolByte.ReadFrom p r))
          (snd (fst (fst (ProtocolByte.ReadFrom p r)))).
Proof. unfold ProtocolByte.ReadFrom. next_read; cbn [fst snd]; taken_solve. Qed.

Lemma AddressLength_ReadFrom_taken (a : Z) (r : R) :
  taken remaining r (snd (AddressLength.ReadFrom a r))
          (snd (fst (fst (AddressLength.ReadFrom a r)))).
Proof. unfold AddressLength.ReadFrom. next_read; cbn [fst snd]; taken_solve. Qed.

Lemma readPort_taken (r : R) :
  taken remaining r (snd (readPort r)) (snd (fst (fst (readPort r)))).
Proof. unfold readPort. next_read; cbn [fst snd]; taken_solve. Qed.

Lemma readIP_taken (r : R) (n : nat) :
  taken remaining r (snd (readIP r n)) (snd (fst (fst (readIP r n)))).
Proof. unfold readIP. next_read; cbn [fst snd]; taken_solve. Qed.

Lemma readIPsAndPorts_taken (r : R) (n : nat) :
  taken remaining r (snd (readIPsAndPorts r n)) (snd (fst (fst (readIPsAndPorts r n)))).
Proof.
  unfold readIPsAndPorts.
  take (readIP_taken r n) (readIP r n); [cbn [fst snd]; taken_solve|].
  match goal with |- context [readIP ?r' n] =>
    take (readIP_taken r' n) (readIP r' n); [cbn [fst snd]; taken_solve|] end.
  match goal with |- context [readPort ?r'] =>
    take (readPort_taken r') (readPort r'); [cbn [fst snd]; taken_solve|] end.
  match goal with |- context [readPort ?r'] =>
    take (readPort_taken r') (readPort r'); cbn [fst snd]; taken_solve end.
Qed.

Lemma readUnix_taken (r : R) :
  taken remaining r (snd (readUnix r)) (snd (fst (fst (readUnix r)))).
Proof.
  unfold readUnix. next_read; [cbn [fst snd]; taken_solve|].
  next_read; cbn [fst snd]; taken_solve.
Qed.

Ltac next_field :=
  match goal with
  | |- context [call_Read ?r ?buf] =>
      take (call_Read_taken r buf) (call_Read r buf)
  | |- context [VersionByte.ReadFrom ?v ?r] =>
      take (VersionByte_ReadFrom_taken v r) (VersionByte.ReadFrom v r)
  | |- context [ProtocolByte.ReadFrom ?p ?r] =>
      take (ProtocolByte_ReadFrom_taken p r) (ProtocolByte.ReadFrom p r)
  | |- context [AddressLength.ReadFrom ?a ?r] =>
      take (AddressLength_ReadFrom_taken a r) (AddressLength.ReadFrom a r)
  | |- context [readIPsAndPorts ?r ?n] =>
      take (readIPsAndPorts_taken r n) (readIPsAndPorts r n)
  | |- context [readUnix ?r] =>
      take (readUnix_taken r) (readUnix r)
  | |- context [if ?c then _ else _] => destruct c
  | |- context [match ?x with Some _ => _ | None => _ end] => is_var x; destruct x
  | |- context [match ?x with Build_ipReadResult _ _ _ _ => _ end] =>
      is_var x; destruct x
  end.

(** Whenever [Header.ReadFrom] returns, the count it returns is the number
    of bytes the source delivered during the call. *)
Lemma Header_ReadFrom_taken (h : Header.t) (r : R) (m : Z) (err : option error) :
  fst (fst (Header.ReadFrom h r)) = Return m err ->
  taken remaining r (snd (Header.ReadFrom h r)) m.
Proof.
  unfold Header.ReadFrom. repeat next_field;
    cbn [fst snd]; intros E; try discriminate E;
    injection E as <- _; taken_solve.
Qed.

End Consumption.

(** ** Two sources that serve every read alike *)

Section Simulation.

Context {R1 R2 : Type} {reader1 : Reader R1} {reader2 : Reader R2}.

Variable sim : R1 -> R2 -> Prop.

(** No read of the decoder asks for more than 32767 bytes; on related
    sources such a read delivers the same bytes and the same error, and
    leaves related sources. *)
Hypothesis Read_sim :
  forall (r1 : R1) (r2 : R2) (n : nat),
    Z.of_nat n <= 32767 -> sim r1 r2 ->
    fst (Read r1 n) = fst (Read r2 n) /\ sim (snd (Read r1 n)) (snd (Read r2 n)).

Lemma call_Read_sim (r1 : R1) (r2 : R2) (buf : list Z) :
  Z.of_nat (length buf) <= 32767 -> sim r1 r2 ->
  alike sim (call_Read r1 buf) (call_Read r2 buf).
Proof.
  intros Hlen Hsim. unfold call_Read.
  destruct (Read_sim r1 r2 (length buf) Hlen Hsim) as [Hv Hs].
  destruct (Read r1 (length buf)) as [[p1 e1] r1'],
           (Read r2 (length buf)) as [[p2 e2] r2'].
  cbn [fst snd] in *. injection Hv as -> ->. now split.
Qed.

(** Names the results of the next read on both sides; they are alike. *)
Ltac pair_up lemma call1 call2 :=
  let Ha := fresh "Ha" in
  let Hs := fresh "Hs" in
  destruct lemma as [Ha Hs];
  destruct call1 as [[[? ?] ?] ?], call2 as [[[? ?] ?] ?];
  cbn [fst snd] in Ha, Hs; injection Ha as -> -> ->;
  cbv beta iota zeta.

Ltac small := rewrite make_length; lia.

Ltac both_read :=
  match goal with
  | Hs : sim ?r1 ?r2 |- context [call_Read ?r1 ?buf] =>
      pair_up (call_Read_sim r1 r2 buf ltac:(small) Hs)
              (call_Read r1 buf) (call_Read r2 buf)
  end.

Ltac same_error :=
  match goal with
  | |- context [match ?e with Some _ => _ | None => _ end] => is_var e; destruct e
  end.

Ltac alike_solve := solve [ split; cbn [fst snd]; auto ].

Lemma VersionByte_ReadFrom_sim (v : VersionByte.t) (r1 : R1) (r2 : R2) :
  sim r1 r2 -> alike sim (VersionByte.ReadFrom v r1) (VersionByte.ReadFrom v r2).
Proof.
  intros Hsim. unfold VersionByte.ReadFrom. both_read. same_error; alike_solve.
Qed.

Lemma ProtocolByte_ReadFrom_sim (p : ProtocolByte.t) (r1 : R1) (r2 : R2) :
  sim r1 r2 -> alike sim (ProtocolByte.ReadFrom p r1) (ProtocolByte.ReadFrom p r2).
Proof.
  intros Hsim. unfold ProtocolByte.ReadFrom. both_read. same_error; alike_solve.
Qed.

Lemma int16_of_uint16_max (x : Z) : int16_of_uint16 x <= 32767.
Proof.
  unfold int16_of_uint16.
  pose proof (Z.mod_pos_bound (x + 32768) 65536). lia.
Qed.

(** The length read is an int16: at most 32767. *)
Lemma AddressLength_ReadFrom_sim (a : Z) (r1 : R1) (r2 : R2) :
  a <= 32767 -> sim r1 r2 ->
  alike sim (AddressLength.ReadFrom a r1) (AddressLength.ReadFrom a r2)
  /\ fst (fst (fst (AddressLength.ReadFrom a r2))) <= 32767.
Proof.
  intros Ha Hsim. unfold AddressLength.ReadFrom. both_read.
  same_error; (split; [alike_solve|]); cbn [fst snd];
    auto using int16_of_uint16_max.
Qed.

Lemma readPort_sim (r1 : R1) (r2 : R2) :
  sim r1 r2 -> alike sim (readPort r1) (readPort r2).
Proof. intros Hsim. unfold readPort. both_read. same_error; alike_solve. Qed.

Lemma readIP_sim (r1 : R1) (r2 : R2) (n : nat) :
  (n <= 16)%nat -> sim r1 r2 -> alike sim (readIP r1 n) (readIP r2 n).
Proof.
  intros Hn Hsim. unfold readIP. both_read. same_error; alike_solve.
Qed.

Lemma readIPsAndPorts_sim (r1 : R1) (r2 : R2) (n : nat) :
  (n <= 16)%nat -> sim r1 r2 ->
  alike sim (readIPsAndPorts r1 n) (readIPsAndPorts r2 n).
Proof.
  intros Hn Hsim. unfold readIPsAndPorts.
  pair_up (readIP_sim r1 r2 n Hn Hsim) (readIP r1 n) (readIP r2 n).
  same_error; [alike_solve|].
  match goal with Hs : sim ?a ?b |- context [readIP ?a n] =>
    pair_up (readIP_sim a b n Hn Hs) (readIP a n) (readIP b n) end.
  same_error; [alike_solve|].
  match goal with Hs : sim ?a ?b |- context [readPort ?a] =>
    pair_up (readPort_sim a b Hs) (readPort a) (readPort b) end.
  same_error; [alike_solve|].
  match goal with Hs : sim ?a ?b |- context [readPort ?a] =>
    pair_up (readPort_sim a b Hs) (readPort a) (readPort b) end.
  same_error; alike_solve.
Qed.

Lemma readUnix_sim (r1 : R1) (r2 : R2) :
  sim r1 r2 -> alike sim (readUnix r1) (readUnix r2).
Proof.
  intros Hsim. unfold readUnix. both_read. same_error; [alike_solve|].
  both_read. same_error; alike_solve.
Qed.

Ltac both_field :=
  match goal with
  | Hs : sim ?r1 ?r2 |- context [call_Read ?r1 ?buf] =>
      pair_up (call_Read_sim r1 r2 buf ltac:(small) Hs)
              (call_Read r1 buf) (call_Read r2 buf)
  | Hs : sim ?r1 ?r2 |- context [VersionByte.ReadFrom ?v ?r1] =>
      pair_up (VersionByte_ReadFrom_sim v r1 r2 Hs)
              (VersionByte.ReadFrom v r1) (VersionByte.ReadFrom v r2)
  | Hs : sim ?r1 ?r2 |- context [ProtocolByte.ReadFrom ?p ?r1] =>
      pair_up (ProtocolByte_ReadFrom_sim p r1 r2 Hs)
              (ProtocolByte.ReadFrom p r1) (ProtocolByte.ReadFrom p r2)
  | Hs : sim ?r1 ?r2 |- context [AddressLength.ReadFrom ?a ?r1] =>
      let Hal := fresh "Hal" in
      let Hmax := fresh "Hmax" in
      destruct (AddressLength_ReadFrom_sim a r1 r2 ltac:(lia) Hs) as [Hal Hmax];
      pair_up Hal (AddressLength.ReadFrom a r1) (AddressLength.ReadFrom a r2);
      cbn [fst snd] in Hmax
  | Hs : sim ?r1 ?r2 |- context [readIPsAndPorts ?r1 ?n] =>
      pair_up (readIPsAndPorts_sim r1 r2 n ltac:(lia) Hs)
              (readIPsAndPorts r1 n) (readIPsAndPorts r2 n)
  | Hs : sim ?r1 ?r2 |- context [readUnix ?r1] =>
      pair_up (readUnix_sim r1 r2 Hs) (readUnix r1) (readUnix r2)
  | |- context [if ?c then _ else _] => destruct c eqn:?
  | |- context [match ?x with Some _ => _ | None => _ end] => is_var x; destruct x
  | |- context [match ?x with Build_ipReadResult _ _ _ _ => _ end] =>
      is_var x; destruct x
  end.

(** On sources that serve every read alike, [Header.ReadFrom] gives the same
    outcome and the same header, and leaves the sources alike. *)
Lemma Header_ReadFrom_sim (h : Header.t) (r1 : R1) (r2 : R2) :
  sim r1 r2 -> alike sim (Header.ReadFrom h r1) (Header.ReadFrom h r2).
Proof.
  intros Hsim. unfold Header.ReadFrom. repeat both_field; alike_solve.
Qed.

End Simulation.

(** ** Sources that deliver short reads *)

Lemma ShortReader_takes (r : ShortReader) (n : nat) :
  pending r = fst (fst (Read r n)) ++ pending (snd (Read r n))
  /\ (length (fst (fst (Read r n))) <= n)%nat.
Proof.
  unfold Read, ShortReader_Reader, ShortReader_Read.
  destruct (pending r) as [|x s] eqn:E; cbn [fst snd].
  - rewrite E. split; [reflexivity | simpl; lia].
  - cbn [pending]. rewrite firstn_skipn, length_firstn.
    split; [reflexivity|]. destruct (limits r); lia.
Qed.

Lemma never_short_Read (r1 : ShortReader) (r2 : bytes.Reader) (n : nat) :
  Z.of_nat n <= 32767 -> never_short r1 r2 ->
  fst (Read r1 n) = fst (Read r2 n)
  /\ never_short (snd (Read r1 n)) (snd (Read r2 n)).
Proof.
  intros Hn [Hdata Hlim].
  unfold Read, ShortReader_Reader, ShortReader_Read, bytes_Reader,
    bytes.Reader_Read.
  rewrite <- Hdata. destruct (pending r1) as [|x s] eqn:E; cbn [fst snd].
  - split; [reflexivity|]. split; [congruence | assumption].
  - assert (Hk : match limits r1 with [] => n | c :: _ => Nat.min n c end = n).
    { destruct (limits r1) as [|c cs]; [reflexivity|].
      inversion Hlim; subst. lia. }
    rewrite Hk. split; [reflexivity|]. split; cbn [pending limits bytes.unread].
    + reflexivity.
    + destruct (limits r1); [constructor | now inversion Hlim].
Qed.

(** ** Sources that record their calls *)

Section Recording.

Context {R : Type} {reader : Reader R}.

Lemma call_Read_recorded (s : R) (l : list call) (n : nat) :
  call_Read {| source := s; calls := l |} (make n)
  = (buffer {| asked := n; delivered := fst (fst (Read s n));
               reported := snd (fst (Read s n)) |},
     count {| asked := n; delivered := fst (fst (Read s n));
              reported := snd (fst (Read s n)) |},
     snd (fst (Read s n)),
     {| source := snd (Read s n);
        calls := l ++ [{| asked := n; delivered := fst (fst (Read s n));
                          reported := snd (fst (Read s n)) |}] |}).
Proof.
  unfold call_Read. rewrite make_length.
  unfold Read at 1, Recorder_Reader, Recorder_Read. cbn [source calls].
  destruct (Read s n) as [[p e] s']. cbn [fst snd].
  unfold buffer, count, received, copy, make. cbn [asked delivered].
  rewrite repeat_length, skipn_repeat.
  rewrite (firstn_all2 (n := n) (firstn n p)) by (rewrite length_firstn; lia).
  reflexivity.
Qed.

(** The next step of a decode on a recording source: a test is decided, or
    the next call of [Read] is named with what it delivered. *)
Ltac next_call :=
  match goal with
  | |- context [if ?c then _ else _] => destruct c eqn:?
  | |- context [call_Read {| source := ?s; calls := ?l |} (make ?n)] =>
      rewrite (call_Read_recorded s l n);
      destruct (Read s n) as [[? [?|]] ?]; cbn [fst snd]; cbv beta iota zeta
  end.

Ltac unfold_fields :=
  unfold Header.ReadFrom, record, VersionByte.ReadFrom, ProtocolByte.ReadFrom,
    AddressLength.ReadFrom, readIPsAndPorts, readIP, readPort, readUnix.

(** Every field is asked for once; the calls before the last reported no
    error; the count returned is the sum of what the calls delivered; an
    error of the last call is what the decode returns. *)
Lemma Header_ReadFrom_recorded (h : Header.t) (r : R) :
  match Header.ReadFrom h (record r) with
  | (out, _, r') =>
      one_read_per_field (map asked (calls r')) = true
      /\ forallb quiet (removelast (calls r')) = true
      /\ (forall (m : Z) (err : option error),
            out = Return m err -> m = total (calls r'))
      /\ (forall e : error,
            reported (last (calls r') no_call) = Some e ->
            out = Return (total (calls r')) (Some e))
  end.
Proof.
  unfold_fields. repeat next_call;
    (split; [reflexivity|]); (split; [reflexivity|]);
    cbn [calls app total fold_right last reported]; split.
  all: try (intros m err E; try discriminate E; injection E as <- _; lia).
  all: intros e' E; try discriminate E; injection E as <-; f_equal; lia.
Qed.

Lemma buffer_length (c : call) : length (buffer c) = asked c.
Proof.
  unfold buffer, received. rewrite length_app, repeat_length, length_firstn. lia.
Qed.

(** The same decode from memory, on the buffers of the calls recorded. *)
Ltac replay :=
  repeat match goal with
         | H : ?c = _ |- context [if ?c then _ else _] => rewrite H
         | |- context [call_Read (bytes.NewReader (_ ++ _)) (make _)] =>
             rewrite call_Read_app
               by first [ exact (buffer_length _)
                        | repeat match goal with
                                 | H : (_ <? _) = false |- _ => apply Z.ltb_ge in H
                                 | H : (_ =? _) = false |- _ => apply Z.eqb_neq in H
                                 end; cbn [asked]; lia ];
             cbv beta iota zeta
         end.

(** When no call reported an error, short or not: the decode decides what it
    decides from memory on the buffers of its calls, the places a call did
    not fill being zero. *)
Lemma Header_ReadFrom_buffers (h : Header.t) (r : R) :
  match Header.ReadFrom h (record r) with
  | (out, h', r') =>
      forallb quiet (calls r') = true ->
      (verdict out, h')
      = (verdict
           (fst (fst (Header.ReadFrom h
                        (bytes.NewReader (concat (map buffer (calls r'))))))),
         snd (fst (Header.ReadFrom h
                     (bytes.NewReader (concat (map buffer (calls r')))))))
  end.
Proof.
  set (memory := fun l : list call =>
         Header.ReadFrom h (bytes.NewReader (concat (map buffer l)))).
  change (match Header.ReadFrom h (record r) with
          | (out, h', r') =>
              forallb quiet (calls r') = true ->
              (verdict out, h')
              = (verdict (fst (fst (memory (calls r')))),
                 snd (fst (memory (calls r'))))
          end).
  unfold_fields. repeat next_call;
    cbn [calls app forallb quiet reported andb]; intros Hq;
    try discriminate Hq; clear Hq;
    subst memory; cbv beta; cbn [map concat app];
    unfold_fields; replay; reflexivity.
Qed.

(** Recording changes nothing of the decode. *)
Lemma Recorder_transparent (h : Header.t) (r : R) :
  fst (Header.ReadFrom h (record r)) = fst (Header.ReadFrom h r)
  /\ source (snd (Header.ReadFrom h (record r))) = snd (Header.ReadFrom h r).
Proof.
  apply (Header_ReadFrom_sim (fun (r1 : Recorder R) (r2 : R) => source r1 = r2)).
  - intros r1 r2 n _ <-.
    unfold Read at 1 3, Recorder_Reader, Recorder_Read.
    destruct (Read (source r1) n) as [[p e] s]. split; reflexivity.
  - reflexivity.
Qed.

(** A first read that delivers fewer than 12 bytes without an error. *)
Lemma ReadFrom_short_signature (h : Header.t) (r r' : R) (p : list Z) :
  Read r 12 = (p, None, r') -> (length p < 12)%nat ->
  Header.ReadFrom h r
  = (Return (Z.of_nat (length p))
       (Some (ProxyProtocolError ProtocolSignature
                (p ++ repeat 0 (12 - length p)))),
     h, r').
Proof.
  intros E Hlen. unfold Header.ReadFrom, call_Read.
  rewrite make_length, E. cbv beta iota zeta.
  rewrite (firstn_all2 (n := 12) p) by lia.
  unfold copy, make. rewrite repeat_length, skipn_repeat.
  rewrite (firstn_all2 (n := 12) p) by lia.
  now rewrite padded_is_not_signature by lia.
Qed.

End Recording.

(** * The claims *)

(** ** Round trip *)

(** C1, as stated, fails by design on addresses that are not in wire form:
    a PROXY header with a UNIX stream address whose names are shorter than
    108 bytes is encoded (232 bytes) and decoded without error, but the names
    that come back are the 108-byte blocks, padded with NUL bytes. *)
Lemma roundtrip_pads_unix_names :
  fst (encode short_unix_header) = Return 232 None
  /\ exists h' : Header.t,
       decode (bytes.Bytes (snd (encode short_unix_header)))
       = (Return 232 None, h', bytes.NewReader [])
       /\ h' <> short_unix_header
       /\ option_map
            (fun a => match a with
                      | UnixAddr src _ => String.length (net.Name src)
                      | _ => 0%nat
                      end) (Header.ProxyAddress h') = Some 108%nat.
Proof.
  split; [reflexivity|]. eexists. split; [vm_compute; reflexivity|].
  split; [discriminate | reflexivity].
Qed.

(** C1, amended. A PROXY header whose address variant is in wire form
    ([wire_form]) is encoded without error into [16 + getLength] bytes, and
    decoding those bytes gives back the same header, with no error, all the
    bytes consumed and nothing left in the source. *)
Theorem roundtrip_wire_form (a : ProxyAddress) :
  wire_form a = true ->
  fst (encode (PROXY a)) = Return (16 + getLength a) None
  /\ decode (bytes.Bytes (snd (encode (PROXY a))))
     = (Return (16 + getLength a) None, PROXY a, bytes.NewReader []).
Proof.
  intros Hwf. destruct a as [src dst | src dst | src dst]; cbn [wire_form] in Hwf.
  - apply andb_true_iff in Hwf as [Hwf Hsame].
    apply andb_true_iff in Hwf as [Hsrc Hdst].
    apply ip_ok_inv in Hsrc as (s & sp & Es & Hs & Hsp).
    apply ip_ok_inv in Hdst as (d & dp & Ed & Hd & Hdp).
    destruct Es as [-> | ->], Ed as [-> | ->]; try discriminate Hsame.
    + rewrite encode_IPv4_TCP, !alignIP_4, Hs, Hd by assumption.
      split; [reflexivity|]. decode_ip_wire.
      rewrite ReadFrom_INET_STREAM by (reflexivity || discriminate || auto).
      now rewrite !Uint16_port_bytes by assumption.
    + rewrite encode_IPv4_UDP, !alignIP_4, Hs, Hd by assumption.
      split; [reflexivity|]. decode_ip_wire.
      rewrite ReadFrom_INET_DGRAM by (reflexivity || discriminate || auto).
      now rewrite !Uint16_port_bytes by assumption.
  - apply andb_true_iff in Hwf as [Hwf Hsame].
    apply andb_true_iff in Hwf as [Hsrc Hdst].
    apply ip_ok_inv in Hsrc as (s & sp & Es & Hs & Hsp).
    apply ip_ok_inv in Hdst as (d & dp & Ed & Hd & Hdp).
    destruct Es as [-> | ->], Ed as [-> | ->]; try discriminate Hsame.
    + rewrite encode_IPv6_TCP, !alignIP_16, Hs, Hd by assumption.
      split; [reflexivity|]. decode_ip_wire.
      rewrite ReadFrom_INET6_STREAM by (reflexivity || discriminate || auto).
      now rewrite !Uint16_port_bytes by assumption.
    + rewrite encode_IPv6_UDP, !alignIP_16, Hs, Hd by assumption.
      split; [reflexivity|]. decode_ip_wire.
      rewrite ReadFrom_INET6_DGRAM by (reflexivity || discriminate || auto).
      now rewrite !Uint16_port_bytes by assumption.
  - rewrite encode_Unix. split; [reflexivity|].
    apply orb_true_iff in Hwf as [Hwf | Hwf];
      apply andb_true_iff in Hwf as [Hsrc Hdst];
      apply unix_ok_inv in Hsrc as [Hs Hsnet];
      apply unix_ok_inv in Hdst as [Hd Hdnet];
      destruct src as [sname snet], dst as [dname dnet];
      cbn [net.Name net.Net] in *; subst snet dnet;
      cbn [snd bytes.Bytes String.eqb Ascii.eqb Bool.eqb];
      unfold decode, unix_wire; cbn [net.Name];
      rewrite <- (app_nil_r (copy (make 108) (bytes_of_string dname))).
    + rewrite ReadFrom_UNIX_STREAM
        by (reflexivity || discriminate || auto using copy_make_length).
      now rewrite !unix_block_name by assumption.
    + rewrite ReadFrom_UNIX_DGRAM
        by (reflexivity || discriminate || auto using copy_make_length).
      now rewrite !unix_block_name by assumption.
Qed.

Lemma roundtrip_wire_form_witness :
  fst (encode (PROXY (IPv4Address (localhost 42446) (localhost 1338))))
  = Return (16 + 12) None
  /\ decode (bytes.Bytes
               (snd (encode (PROXY (IPv4Address (localhost 42446)
                                                (localhost 1338))))))
     = (Return (16 + 12) None,
        PROXY (IPv4Address (localhost 42446) (localhost 1338)),
        bytes.NewReader []).
Proof.
  apply (roundtrip_wire_form (IPv4Address (localhost 42446) (localhost 1338))).
  reflexivity.
Defined.

(** ** Declared length against the fixed size *)

(** C2, as stated, fails: the canonical vector with its declared length
    changed from 12 to 10 (INET/STREAM) is decoded without any error, and 12
    payload bytes, not 10, are consumed. *)
Lemma declared_length_10_accepted :
  decode (ProtocolSignature
          ++ [0x21; 0x11; 0x00; 0x0A;
              0x7F; 0x00; 0x00; 0x01; 0x7F; 0x00; 0x00; 0x01;
              0xA5; 0xCE; 0x05; 0x3A])
  = (Return 28 None,
     {| Header.Command := CommandPROXY;
        Header.ProxyAddress :=
          Some (IPv4Address (localhost 42446) (localhost 1338)) |},
     bytes.NewReader []).
Proof. reflexivity. Qed.

(** C2, amended. The declared length is only compared with zero.  For a
    header that passes the field checks, announces one of the six handled
    pairs and declares any length other than zero, followed by as many
    payload bytes as the variant's fixed size (12 for INET, 36 for INET6, 216
    for UNIX), decoding succeeds: it consumes the 16 fixed bytes and exactly
    that payload, whatever the declared length, and attaches an address
    variant of that size and of the announced pair. *)
Theorem declared_length_not_checked
  (h : Header.t) (vb pb b0 b1 : Z) (payload rest : list Z) :
  Z.shiftr vb 4 = 2 -> Z.land vb 15 = 0 \/ Z.land vb 15 = 1 ->
  (Z.shiftr pb 4 = AddressFamilyINET /\ length payload = 12%nat)
  \/ (Z.shiftr pb 4 = AddressFamilyINET6 /\ length payload = 36%nat)
  \/ (Z.shiftr pb 4 = AddressFamilyUNIX /\ length payload = 216%nat) ->
  Z.land pb 15 = TransportProtocolSTREAM \/ Z.land pb 15 = TransportProtocolDGRAM ->
  int16_of_uint16 (binary.BigEndian.Uint16 [b0; b1]) <> 0 ->
  exists a : ProxyAddress,
    Header.ReadFrom h
      (bytes.NewReader (ProtocolSignature ++ vb :: pb :: b0 :: b1 ::
                        payload ++ rest))
    = (Return (16 + Z.of_nat (length payload)) None,
       {| Header.Command := Z.land vb 15; Header.ProxyAddress := Some a |},
       bytes.NewReader rest)
    /\ getLength a = Z.of_nat (length payload)
    /\ getSignature a = Ok (Header.pb (Z.shiftr pb 4) (Z.land pb 15)).
Proof.
  intros Hv Hc Hf Ht Hl.
  destruct Hf as [[Hf Hlen] | [[Hf Hlen] | [Hf Hlen]]]; rewrite Hlen.
  - destruct (split_ip_block 4 payload Hlen)
      as (sip & dip & a & b & c & d & -> & Hs & Hd).
    rewrite <- !app_assoc. cbn [app].
    destruct Ht as [Ht | Ht]; eexists; rewrite Hf, Ht.
    + rewrite ReadFrom_INET_STREAM by assumption. repeat split.
    + rewrite ReadFrom_INET_DGRAM by assumption. repeat split.
  - destruct (split_ip_block 16 payload Hlen)
      as (sip & dip & a & b & c & d & -> & Hs & Hd).
    rewrite <- !app_assoc. cbn [app].
    destruct Ht as [Ht | Ht]; eexists; rewrite Hf, Ht.
    + rewrite ReadFrom_INET6_STREAM by assumption. repeat split.
    + rewrite ReadFrom_INET6_DGRAM by assumption. repeat split.
  - destruct (split_unix_block payload Hlen) as (src & dst & -> & Hs & Hd).
    rewrite <- !app_assoc.
    destruct Ht as [Ht | Ht]; eexists; rewrite Hf, Ht.
    + rewrite ReadFrom_UNIX_STREAM by assumption. repeat split.
    + rewrite ReadFrom_UNIX_DGRAM by assumption. repeat split.
Qed.

Lemma declared_length_not_checked_witness :
  exists a : ProxyAddress,
    Header.ReadFrom Header.zero
      (bytes.NewReader
         (ProtocolSignature ++ 0x21 :: 0x11 :: 0x00 :: 0x0A ::
          [0x7F; 0x00; 0x00; 0x01; 0x7F; 0x00; 0x00; 0x01;
           0xA5; 0xCE; 0x05; 0x3A] ++ [0xFF]))
    = (Return (16 + Z.of_nat 12) None,
       {| Header.Command := 1; Header.ProxyAddress := Some a |},
       bytes.NewReader [0xFF])
    /\ getLength a = Z.of_nat 12
    /\ getSignature a = Ok (Header.pb 1 1).
Proof.
  apply (declared_length_not_checked Header.zero 0x21 0x11 0x00 0x0A
           [0x7F; 0x00; 0x00; 0x01; 0x7F; 0x00; 0x00; 0x01;
            0xA5; 0xCE; 0x05; 0x3A] [0xFF]).
  - reflexivity.
  - right. reflexivity.
  - left. split; reflexivity.
  - left. reflexivity.
  - discriminate.
Defined.

(** ** Pairs without a payload layout *)

(** C3 at a declared length of 0x8000.  The header announces UNSPEC/STREAM
    and is followed by all of its 32768 payload bytes; instead of draining
    them and returning the transport-protocol error, [Header.ReadFrom]
    panics on the negative slice length, with no payload byte consumed. *)
Theorem drain_panics_on_length_0x8000 :
  decode (ProtocolSignature ++ 0x21 :: 0x01 :: 0x80 :: 0x00
            :: repeat 0 (Z.to_nat 32768))
  = (Panic makeslice_len, Header.set_Command Header.zero CommandPROXY,
     bytes.NewReader (repeat 0 (Z.to_nat 32768))).
Proof.
  apply (ReadFrom_negative_length Header.zero 0x21 0x01 0x80 0x00);
    eval_nibbles; auto; try lia.
  reflexivity.
Qed.

(** X1. The drain of a pair without payload layout, for the lengths it
    handles.  When the header passes the field checks with family 0 or transport 0 and
    declares a length [n] between 1 and 32767, and the source holds at least
    [n] more bytes, decoding takes exactly those [n] bytes, reports [16 + n]
    bytes consumed and fails with the transport-protocol error carrying the
    transport, the family and [n]; the source is left right after the
    payload. *)
Theorem unhandled_pair_drained
  (h : Header.t) (vb pb b0 b1 : Z) (payload rest : list Z) :
  Z.shiftr vb 4 = 2 -> Z.land vb 15 = 0 \/ Z.land vb 15 = 1 ->
  0 <= Z.shiftr pb 4 <= 3 -> 0 <= Z.land pb 15 <= 2 ->
  Z.shiftr pb 4 = 0 \/ Z.land pb 15 = 0 ->
  0 <= b0 < 128 -> 0 <= b1 < 256 -> 0 < 256 * b0 + b1 ->
  Z.of_nat (length payload) = 256 * b0 + b1 ->
  Header.ReadFrom h
    (bytes.NewReader (ProtocolSignature ++ vb :: pb :: b0 :: b1 ::
                      payload ++ rest))
  = (Return (16 + (256 * b0 + b1))
       (Some (TransportProtocolError (Z.land pb 15) (Z.shiftr pb 4)
                                     (256 * b0 + b1))),
     Header.set_Command h (Z.land vb 15), bytes.NewReader rest).
Proof.
  intros Hv Hc Hf Ht Hpair H0 H1 Hpos Hlen.
  assert (E : int16_of_uint16 (binary.BigEndian.Uint16 [b0; b1])
              = 256 * b0 + b1).
  { rewrite Uint16_value by assumption. apply int16_of_uint16_low. lia. }
  rewrite <- E. apply ReadFrom_drain; try assumption; rewrite E; lia.
Qed.

Lemma unhandled_pair_drained_witness :
  decode (ProtocolSignature ++ 0x21 :: 0x01 :: 0x00 :: 0x05
            :: [1; 2; 3; 4; 5] ++ [6; 7])
  = (Return 21 (Some (TransportProtocolError 1 0 5)),
     Header.set_Command Header.zero 1, bytes.NewReader [6; 7]).
Proof.
  apply (unhandled_pair_drained Header.zero 0x21 0x01 0x00 0x05
           [1; 2; 3; 4; 5] [6; 7]);
    eval_nibbles; auto; try lia; reflexivity.
Defined.

(** ** Encoding PROXY without an address *)

(** C4, as stated, fails: for the PROXY header with no address, 13 bytes
    (the signature and the version byte 0x21) are in the sink when [WriteTo]
    stops, and it stops with a panic, not with an error returned to the
    caller. *)
Lemma proxy_without_address_writes_13_bytes :
  encode {| Header.Command := CommandPROXY; Header.ProxyAddress := None |}
  = (Panic nil_dereference, bytes.NewBuffer (ProtocolSignature ++ [0x21])).
Proof. reflexivity. Qed.

(** C4, amended. Encoding the PROXY header with no address never succeeds
    and validates nothing before it writes.  On a buffer, which accepts every
    write, the signature and the version byte 0x21 are appended and then the
    call of the address's method on the nil interface panics.  On any sink,
    the call either returns the sink's own error from one of these two writes
    or panics after them: it never returns without error, and whenever it
    returns, what it returned is the error of a write. *)
Theorem proxy_without_address_panics :
  (forall w : bytes.Buffer,
     Header.WriteTo
       {| Header.Command := CommandPROXY; Header.ProxyAddress := None |} w
     = (Panic nil_dereference,
        bytes.NewBuffer (bytes.Bytes w ++ ProtocolSignature ++ [0x21])))
  /\ (forall (W : Type) (writer : Writer W) (w : W),
        let out :=
          Header.WriteTo
            {| Header.Command := CommandPROXY; Header.ProxyAddress := None |} w
        in
        fst out = Panic nil_dereference
        \/ exists m e, fst out = Return m (Some e)
                       /\ (snd (fst (Write w ProtocolSignature)) = Some e
                           \/ snd (fst (Write (snd (Write w ProtocolSignature))
                                              [0x21])) = Some e)).
Proof.
  split.
  - intros w. apply (WriteTo_no_address CommandPROXY w).
  - intros W writer w. cbv zeta.
    unfold Header.WriteTo, VersionByte.WriteTo.
    cbn [Header.Command Header.ProxyAddress VersionByte.ProtocolVersion
         VersionByte.Command].
    change (Z.lor (byte_of (Z.shiftl ProtocolVersion 4)) (byte_of CommandPROXY))
      with 0x21.
    destruct (Write w ProtocolSignature) as [[n1 [e1|]] w1]; cbn [fst snd].
    + right. exists (0 + n1), e1. auto.
    + destruct (Write w1 [0x21]) as [[n2 [e2|]] w2]; cbn [fst snd].
      * right. exists (0 + n1 + n2), e2. auto.
      * left. reflexivity.
Qed.

(** ** Encoding LOCAL *)

(** C5 at the LOCAL header with no address.  This is the header that
    decoding a LOCAL header from the wire produces, and encoding it does not
    succeed: after the signature and the version byte 0x20 the call of the
    address's method on the nil interface panics; neither the protocol byte
    nor the zero length is written. *)
Theorem local_header_cannot_be_encoded :
  decode (ProtocolSignature ++ [0x20; 0x00; 0x00; 0x00])
  = (Return 16 None,
     {| Header.Command := CommandLOCAL; Header.ProxyAddress := None |},
     bytes.NewReader [])
  /\ encode {| Header.Command := CommandLOCAL; Header.ProxyAddress := None |}
     = (Panic nil_dereference, bytes.NewBuffer (ProtocolSignature ++ [0x20])).
Proof.
  split.
  - unfold decode. read_signature. read_field. compare_fields.
    read_field. compare_fields. read_field. reflexivity.
  - apply (WriteTo_no_address CommandLOCAL (bytes.NewBuffer [])).
Qed.

(** X2. Encoding a LOCAL header with an address attached.  When the address's
    source endpoint is of a supported kind, so that its protocol byte
    ([getSignature]) is defined, [WriteTo] succeeds on a buffer and appends
    exactly 16 bytes: the signature, the version byte 0x20, the address's
    protocol byte and the length 0; no payload byte is written. *)
Theorem local_with_address_has_no_payload
  (a : ProxyAddress) (p : ProtocolByte.t) (w : bytes.Buffer) :
  getSignature a = Ok p ->
  Header.WriteTo
    {| Header.Command := CommandLOCAL; Header.ProxyAddress := Some a |} w
  = (Return 16 None,
     bytes.NewBuffer
       (bytes.Bytes w ++ ProtocolSignature
        ++ [0x20;
            Z.lor (byte_of (Z.shiftl (ProtocolByte.AddressFamily p) 4))
                  (byte_of (ProtocolByte.TransportProtocol p));
            0x00; 0x00])).
Proof.
  intros Hsig. unfold Header.WriteTo.
  cbn [Header.Command Header.ProxyAddress]. rewrite Hsig.
  unfold VersionByte.WriteTo, ProtocolByte.WriteTo, AddressLength.WriteTo,
    binary.Write, Write, bytes_Buffer, bytes.Buffer_Write.
  cbn [bytes.Bytes VersionByte.ProtocolVersion VersionByte.Command].
  cbv beta iota zeta. f_equal. f_equal. now rewrite <- !app_assoc.
Qed.

Lemma local_with_address_has_no_payload_witness :
  encode {| Header.Command := CommandLOCAL;
            Header.ProxyAddress :=
              Some (IPv4Address (localhost 42446) (localhost 1338)) |}
  = (Return 16 None,
     bytes.NewBuffer (ProtocolSignature ++ [0x20; 0x11; 0x00; 0x00])).
Proof.
  apply (local_with_address_has_no_payload
           (IPv4Address (localhost 42446) (localhost 1338))
           (Header.pb AddressFamilyINET TransportProtocolSTREAM)
           (bytes.NewBuffer [])).
  reflexivity.
Defined.

(** ** The canonical vector *)

(** C6. Decoding the 28 bytes of the canonical vector succeeds: no error, 28
    bytes consumed, command PROXY and an IPv4 address whose source is
    127.0.0.1:42446 and whose destination is 127.0.0.1:1338 (both TCP); the
    source is left empty. *)
Theorem canonical_vector_decodes :
  decode canonical_vector
  = (Return 28 None,
     {| Header.Command := CommandPROXY;
        Header.ProxyAddress :=
          Some (IPv4Address (localhost 42446) (localhost 1338)) |},
     bytes.NewReader []).
Proof.
  unfold decode, canonical_vector, encodedHeaders. cbn [nth].
  apply (ReadFrom_INET_STREAM Header.zero 0x21 0x11 0x00 0x0c []
           eq_refl (or_intror eq_refl) ltac:(discriminate)
           [0x7f; 0x00; 0x00; 0x01] [0x7f; 0x00; 0x00; 0x01] 0xa5 0xce 0x05 0x3a
           eq_refl eq_refl eq_refl eq_refl).
Qed.

(** ** Signature mismatch *)

(** C7. On an input of at least 12 bytes whose first 12 bytes are not the
    signature, decoding fails with a [ProxyProtocolError] that carries the
    expected signature and the 12 bytes found, reports 12 bytes consumed,
    leaves the header as it was and the source after those 12 bytes. *)
Theorem signature_mismatch (h : Header.t) (data : list Z) :
  (12 <= length data)%nat ->
  firstn 12 data <> ProtocolSignature ->
  Header.ReadFrom h (bytes.NewReader data)
  = (Return 12 (Some (ProxyProtocolError ProtocolSignature (firstn 12 data))),
     h, bytes.NewReader (skipn 12 data)).
Proof.
  intros Hlen Hsig. unfold Header.ReadFrom.
  rewrite call_Read_memory by lia. reduce_reads.
  destruct (bytes.Equal (firstn 12 data) ProtocolSignature) eqn:E.
  - apply Equal_spec in E. contradiction.
  - reflexivity.
Qed.

Lemma signature_mismatch_witness :
  decode (0x00 :: tl canonical_vector)
  = (Return 12
       (Some (ProxyProtocolError
                ProtocolSignature
                [0x00; 0x0A; 0x0D; 0x0A; 0x00; 0x0D; 0x0A; 0x51; 0x55; 0x49; 0x54; 0x0A])),
     Header.zero,
     bytes.NewReader [0x21; 0x11; 0x00; 0x0C; 0x7F; 0x00; 0x00; 0x01;
                      0x7F; 0x00; 0x00; 0x01; 0xA5; 0xCE; 0x05; 0x3A]).
Proof.
  apply (signature_mismatch Header.zero (0x00 :: tl canonical_vector)).
  - simpl. lia.
  - discriminate.
Defined.

(** ** Reserved nibbles *)

(** C8. Reserved nibble values are rejected, field by field in the order of
    the wire.  On an input that starts with the signature, with version
    nibble [version] and command nibble [command] in byte 12, family nibble
    [family] and transport nibble [transport] in byte 13:
    - a version other than 2 fails with the unsupported-version error;
    - version 2 with a command other than 0 and 1 fails with the
      unsupported-command error;
    - past these, a family outside 0..3 fails with the unsupported-family
      error;
    - past these, a transport outside 0..2 fails with the
      unsupported-transport error;
    - so whenever decoding ends without an error, none of the four nibbles
      had a reserved value. *)
Theorem reserved_nibbles_rejected (h : Header.t) (vb pb : Z) (rest : list Z) :
  let version := Z.shiftr vb 4 in
  let command := Z.land vb 15 in
  let family := Z.shiftr pb 4 in
  let transport := Z.land pb 15 in
  let input := bytes.NewReader (ProtocolSignature ++ vb :: pb :: rest) in
  (version <> 2 ->
   Header.ReadFrom h input
   = (Return 13 (Some (UnsupportedProtocolVersion 2 version)), h,
      bytes.NewReader (pb :: rest)))
  /\ (version = 2 -> command <> 0 -> command <> 1 ->
      Header.ReadFrom h input
      = (Return 13 (Some (UnsupportedCommand command)), h,
         bytes.NewReader (pb :: rest)))
  /\ (version = 2 -> command = 0 \/ command = 1 -> ~ 0 <= family <= 3 ->
      Header.ReadFrom h input
      = (Return 14 (Some (UnsupportedAddressFamily family)),
         Header.set_Command h command, bytes.NewReader rest))
  /\ (version = 2 -> command = 0 \/ command = 1 -> 0 <= family <= 3 ->
      ~ 0 <= transport <= 2 ->
      Header.ReadFrom h input
      = (Return 14 (Some (UnsupportedTransportProtocol transport)),
         Header.set_Command h command, bytes.NewReader rest))
  /\ (forall m h' r',
      Header.ReadFrom h input = (Return m None, h', r') ->
      version = 2 /\ (command = 0 \/ command = 1)
      /\ 0 <= family <= 3 /\ 0 <= transport <= 2).
Proof.
  intros version command family transport input.
  assert (H1 := ReadFrom_bad_version h vb (pb :: rest)).
  assert (H2 := ReadFrom_bad_command h vb (pb :: rest)).
  assert (H3 := ReadFrom_bad_family h vb pb rest).
  assert (H4 := ReadFrom_bad_transport h vb pb rest).
  fold version command family transport input in H1, H2, H3, H4.
  do 4 (split; [assumption|]).
  intros m h' r' Hok.
  assert (Ev : version = 2).
  { destruct (Z.eq_dec version 2) as [E | N]; [assumption|].
    rewrite (H1 N) in Hok. discriminate. }
  assert (Ec : command = 0 \/ command = 1).
  { destruct (Z.eq_dec command 0) as [C0 | C0]; [now left|].
    destruct (Z.eq_dec command 1) as [C1 | C1]; [now right|].
    rewrite (H2 Ev C0 C1) in Hok. discriminate. }
  assert (Ef : 0 <= family <= 3).
  { destruct (Z_le_dec 0 family) as [L | L], (Z_le_dec family 3) as [U | U];
      try (split; assumption);
      rewrite (H3 Ev Ec) in Hok by lia; discriminate. }
  assert (Et : 0 <= transport <= 2).
  { destruct (Z_le_dec 0 transport) as [L | L], (Z_le_dec transport 2) as [U | U];
      try (split; assumption);
      rewrite (H4 Ev Ec Ef) in Hok by lia; discriminate. }
  auto.
Qed.

Lemma reserved_nibbles_rejected_witness :
  decode (ProtocolSignature ++ [0x31; 0x11])
  = (Return 13 (Some (UnsupportedProtocolVersion 2 3)), Header.zero,
     bytes.NewReader [0x11])
  /\ decode (ProtocolSignature ++ [0x22; 0x11])
     = (Return 13 (Some (UnsupportedCommand 2)), Header.zero,
        bytes.NewReader [0x11])
  /\ decode (ProtocolSignature ++ [0x21; 0x41])
     = (Return 14 (Some (UnsupportedAddressFamily 4)),
        Header.set_Command Header.zero 1, bytes.NewReader [])
  /\ decode (ProtocolSignature ++ [0x21; 0x13])
     = (Return 14 (Some (UnsupportedTransportProtocol 3)),
        Header.set_Command Header.zero 1, bytes.NewReader []).
Proof.
  split; [|split; [|split]].
  - apply (proj1 (reserved_nibbles_rejected Header.zero 0x31 0x11 [])).
    discriminate.
  - apply (proj1 (proj2 (reserved_nibbles_rejected Header.zero 0x22 0x11 [])));
      [reflexivity | discriminate | discriminate].
  - apply (proj1 (proj2 (proj2
             (reserved_nibbles_rejected Header.zero 0x21 0x41 []))));
      [reflexivity | right; reflexivity | eval_nibbles; lia].
  - apply (proj1 (proj2 (proj2 (proj2
             (reserved_nibbles_rejected Header.zero 0x21 0x13 [])))));
      [reflexivity | right; reflexivity | eval_nibbles; lia | eval_nibbles; lia].
Defined.

(** ** Short reads *)




(** ** Lengths of 32768 and more *)

(** C10. The address length is a signed 16-bit integer.  When the two length
    bytes [b0], [b1] encode 32768 or more, the value [AddressLength.ReadFrom]
    stores is that number minus 65536, which is negative; and when moreover
    the header passes the field checks with a (family, transport) pair that
    is none of the six handled ones (the family or the transport is 0), the
    default branch asks for a slice of that negative length: [Header.ReadFrom]
    panics, after the 16 bytes of the fixed fields have been taken from the
    source, and returns nothing to its caller. *)
Theorem negative_address_length
  (h : Header.t) (a0 vb pb b0 b1 : Z) (rest : list Z) :
  0 <= b0 < 256 -> 0 <= b1 < 256 -> 32768 <= 256 * b0 + b1 ->
  let length := 256 * b0 + b1 - 65536 in
  length < 0
  /\ AddressLength.ReadFrom a0 (bytes.NewReader (b0 :: b1 :: rest))
     = (length, 2, None, bytes.NewReader rest)
  /\ (Z.shiftr vb 4 = 2 -> Z.land vb 15 = 0 \/ Z.land vb 15 = 1 ->
      0 <= Z.shiftr pb 4 <= 3 -> 0 <= Z.land pb 15 <= 2 ->
      Z.shiftr pb 4 = 0 \/ Z.land pb 15 = 0 ->
      Header.ReadFrom h
        (bytes.NewReader (ProtocolSignature ++ vb :: pb :: b0 :: b1 :: rest))
      = (Panic makeslice_len, Header.set_Command h (Z.land vb 15),
         bytes.NewReader rest)).
Proof.
  intros H0 H1 Hbig length.
  assert (Hlen : int16_of_uint16 (binary.BigEndian.Uint16 [b0; b1]) = length).
  { rewrite Uint16_value by assumption.
    rewrite int16_of_uint16_high by lia. reflexivity. }
  assert (Hneg : length < 0) by (subst length; lia).
  split; [assumption|]. split.
  - rewrite AddressLength_ReadFrom_cons, Hlen. reflexivity.
  - intros Hv Hc Hf Ht Hpair.
    apply ReadFrom_negative_length; try assumption.
    now rewrite Hlen.
Qed.

Lemma negative_address_length_witness :
  -32768 < 0
  /\ AddressLength.ReadFrom 0 (bytes.NewReader [0x80; 0x00; 1; 2; 3])
     = (-32768, 2, None, bytes.NewReader [1; 2; 3])
  /\ decode (ProtocolSignature ++ [0x21; 0x01; 0x80; 0x00; 1; 2; 3])
     = (Panic makeslice_len, Header.set_Command Header.zero 1,
        bytes.NewReader [1; 2; 3]).
Proof.
  destruct (negative_address_length Header.zero 0 0x21 0x01 0x80 0x00 [1; 2; 3])
    as (Hneg & Hlen & Hpanic); try lia.
  split; [exact Hneg|]. split; [exact Hlen|].
  apply Hpanic; eval_nibbles; auto; lia.
Defined.

(** * Further properties *)

(** ** Inputs that end early *)

(** A read from memory that finds fewer bytes than it asks for: they are
    delivered without an error and the rest of the buffer stays zero. *)
Lemma call_Read_memory_short (s : list Z) (n : nat) :
  (0 < length s <= n)%nat ->
  call_Read (bytes.NewReader s) (make n)
  = (s ++ repeat 0 (n - length s), Z.of_nat (length s), None,
     bytes.NewReader []).
Proof.
  intros Hn. unfold call_Read, Read, bytes_Reader, bytes.Reader_Read.
  rewrite make_length. simpl bytes.unread.
  destruct s as [|x s]; [simpl in Hn; lia|].
  rewrite skipn_all2 by lia.
  rewrite firstn_firstn, Nat.min_id, (firstn_all2 (n := n)) by lia.
  unfold copy, make. rewrite repeat_length, skipn_repeat.
  now rewrite (firstn_all2 (n := n)) by lia.
Qed.

(** A read from memory that finds nothing. *)
Lemma call_Read_memory_empty (n : nat) :
  call_Read (bytes.NewReader []) (make n)
  = (make n, 0, Some EOF, bytes.NewReader []).
Proof.
  unfold call_Read, Read, bytes_Reader, bytes.Reader_Read. simpl bytes.unread.
  rewrite make_length. unfold copy. now rewrite !firstn_nil.
Qed.

(** X3. An in-memory input of 1 to 11 bytes is not reported as ended: the
    single read of the signature delivers what is there without an error,
    the buffer keeps zeros in the missing places, and since the signature
    ends in 0x0A the comparison fails.  Decoding returns the signature error
    with the padded bytes, the count of bytes present, and the header as it
    was. *)
Theorem truncated_signature (h : Header.t) (data : list Z) :
  (0 < length data < 12)%nat ->
  Header.ReadFrom h (bytes.NewReader data)
  = (Return (Z.of_nat (length data))
       (Some (ProxyProtocolError ProtocolSignature
                (data ++ repeat 0 (12 - length data)))),
     h, bytes.NewReader []).
Proof.
  intros Hlen. unfold Header.ReadFrom.
  rewrite call_Read_memory_short by lia. reduce_reads.
  now rewrite padded_is_not_signature by lia.
Qed.

Lemma truncated_signature_witness :
  Header.ReadFrom Header.zero (bytes.NewReader [0x0D; 0x0A; 0x0D; 0x0A; 0x00])
  = (Return (Z.of_nat (length [0x0D; 0x0A; 0x0D; 0x0A; 0x00]))
       (Some (ProxyProtocolError ProtocolSignature
                ([0x0D; 0x0A; 0x0D; 0x0A; 0x00]
                 ++ repeat 0 (12 - length [0x0D; 0x0A; 0x0D; 0x0A; 0x00])))),
     Header.zero, bytes.NewReader []).
Proof.
  apply (truncated_signature Header.zero [0x0D; 0x0A; 0x0D; 0x0A; 0x00]).
  simpl. lia.
Defined.

Lemma VersionByte_ReadFrom_empty (v : VersionByte.t) :
  VersionByte.ReadFrom v (bytes.NewReader [])
  = (v, 0, Some EOF, bytes.NewReader []).
Proof. reflexivity. Qed.

Lemma ProtocolByte_ReadFrom_empty (p : ProtocolByte.t) :
  ProtocolByte.ReadFrom p (bytes.NewReader [])
  = (p, 0, Some EOF, bytes.NewReader []).
Proof. reflexivity. Qed.

Lemma AddressLength_ReadFrom_empty (a : Z) :
  AddressLength.ReadFrom a (bytes.NewReader [])
  = (a, 0, Some EOF, bytes.NewReader []).
Proof. reflexivity. Qed.

Lemma readIPsAndPorts_empty (n : nat) :
  readIPsAndPorts (bytes.NewReader []) n
  = (None, 0, Some EOF, bytes.NewReader []).
Proof.
  unfold readIPsAndPorts, readIP. now rewrite call_Read_memory_empty.
Qed.

Lemma readUnix_empty :
  readUnix (bytes.NewReader []) = (None, 0, Some EOF, bytes.NewReader []).
Proof. reflexivity. Qed.

(** Case analysis on the twelve pairs of valid nibbles of the protocol byte
    [pb], given [Hf : 0 <= Z.shiftr pb 4 <= 3] and
    [Ht : 0 <= Z.land pb 15 <= 2]. *)
Ltac each_pair pb Hf Ht :=
  let f := fresh "f" in
  let t := fresh "t" in
  let Ef := fresh "Ef" in
  let Et := fresh "Et" in
  remember (Z.shiftr pb 4) as f eqn:Ef;
  remember (Z.land pb 15) as t eqn:Et;
  symmetry in Ef, Et;
  assert (f = 0 \/ f = 1 \/ f = 2 \/ f = 3) as [-> | [-> | [-> | ->]]] by lia;
  assert (t = 0 \/ t = 1 \/ t = 2) as [-> | [-> | ->]] by lia.

Section ValidPrefix.

Variables (h : Header.t) (vb pb : Z).
Hypothesis Hv : Z.shiftr vb 4 = 2.
Hypothesis Hc : Z.land vb 15 = 0 \/ Z.land vb 15 = 1.
Hypothesis Hf : 0 <= Z.shiftr pb 4 <= 3.
Hypothesis Ht : 0 <= Z.land pb 15 <= 2.

Lemma ReadFrom_ends_after_signature :
  Header.ReadFrom h (bytes.NewReader ProtocolSignature)
  = (Return 12 (Some EOF), h, bytes.NewReader []).
Proof.
  rewrite <- (app_nil_r ProtocolSignature). read_signature.
  now rewrite VersionByte_ReadFrom_empty.
Qed.

Lemma ReadFrom_ends_after_version :
  Header.ReadFrom h (bytes.NewReader (ProtocolSignature ++ [vb]))
  = (Return 13 (Some EOF), Header.set_Command h (Z.land vb 15),
     bytes.NewReader []).
Proof.
  read_signature. read_field. rewrite Hv, (command_ok _ Hc). compare_fields.
  now rewrite ProtocolByte_ReadFrom_empty.
Qed.

Lemma ReadFrom_ends_after_protocol :
  Header.ReadFrom h (bytes.NewReader (ProtocolSignature ++ [vb; pb]))
  = (Return 14 (Some EOF), Header.set_Command h (Z.land vb 15),
     bytes.NewReader []).
Proof.
  read_signature. read_field. rewrite Hv, (command_ok _ Hc).
  read_field. rewrite (family_ok _ Hf), (transport_ok _ Ht). compare_fields.
  now rewrite AddressLength_ReadFrom_empty.
Qed.

Lemma ReadFrom_ends_after_length (b0 b1 : Z) :
  0 < int16_of_uint16 (binary.BigEndian.Uint16 [b0; b1]) ->
  Header.ReadFrom h (bytes.NewReader (ProtocolSignature ++ [vb; pb; b0; b1]))
  = (Return 16 (Some EOF), Header.set_Command h (Z.land vb 15),
     bytes.NewReader []).
Proof.
  intros Hpos.
  assert (Hl : int16_of_uint16 (binary.BigEndian.Uint16 [b0; b1]) <> 0) by lia.
  assert (Hge : (int16_of_uint16 (binary.BigEndian.Uint16 [b0; b1]) <? 0) = false)
    by (apply Z.ltb_ge; lia).
  each_pair pb Hf Ht; read_fixed_fields Hv Hc Ef Et Hl;
    rewrite ?readIPsAndPorts_empty, ?readUnix_empty, ?Hge,
      ?call_Read_memory_empty; reflexivity.
Qed.

Lemma ReadFrom_zero_length (rest : list Z) :
  Header.ReadFrom h
    (bytes.NewReader (ProtocolSignature ++ vb :: pb :: 0 :: 0 :: rest))
  = (Return 16 None, Header.set_Command h (Z.land vb 15),
     bytes.NewReader rest).
Proof.
  read_signature. read_field. rewrite Hv, (command_ok _ Hc).
  read_field. rewrite (family_ok _ Hf), (transport_ok _ Ht). compare_fields.
  read_field. reflexivity.
Qed.

Lemma ReadFrom_half_length :
  Header.ReadFrom h (bytes.NewReader (ProtocolSignature ++ [vb; pb; 0]))
  = (Return 15 None, Header.set_Command h (Z.land vb 15),
     bytes.NewReader []).
Proof.
  read_signature. read_field. rewrite Hv, (command_ok _ Hc).
  read_field. rewrite (family_ok _ Hf), (transport_ok _ Ht). compare_fields.
  reflexivity.
Qed.

End ValidPrefix.

(** X4. An in-memory input that ends exactly at a field boundary is reported
    with [io.EOF] and the count of the bytes that were there.  For a header
    that passes the field checks and declares a positive length: the empty
    input gives 0 bytes, the signature alone 12, the signature and the
    version byte 13, with the protocol byte 14, and with the two length bytes
    but no payload 16; from the version byte on, the command has already been
    stored in the header. *)
Theorem input_ends_at_field_boundary (h : Header.t) (vb pb b0 b1 : Z) :
  Z.shiftr vb 4 = 2 -> Z.land vb 15 = 0 \/ Z.land vb 15 = 1 ->
  0 <= Z.shiftr pb 4 <= 3 -> 0 <= Z.land pb 15 <= 2 ->
  0 < int16_of_uint16 (binary.BigEndian.Uint16 [b0; b1]) ->
  Header.ReadFrom h (bytes.NewReader [])
  = (Return 0 (Some EOF), h, bytes.NewReader [])
  /\ Header.ReadFrom h (bytes.NewReader ProtocolSignature)
     = (Return 12 (Some EOF), h, bytes.NewReader [])
  /\ Header.ReadFrom h (bytes.NewReader (ProtocolSignature ++ [vb]))
     = (Return 13 (Some EOF), Header.set_Command h (Z.land vb 15),
        bytes.NewReader [])
  /\ Header.ReadFrom h (bytes.NewReader (ProtocolSignature ++ [vb; pb]))
     = (Return 14 (Some EOF), Header.set_Command h (Z.land vb 15),
        bytes.NewReader [])
  /\ Header.ReadFrom h (bytes.NewReader (ProtocolSignature ++ [vb; pb; b0; b1]))
     = (Return 16 (Some EOF), Header.set_Command h (Z.land vb 15),
        bytes.NewReader []).
Proof.
  intros Hv Hc Hf Ht Hl. split; [reflexivity|].
  split; [apply ReadFrom_ends_after_signature|].
  split; [now apply ReadFrom_ends_after_version|].
  split; [now apply ReadFrom_ends_after_protocol|].
  now apply ReadFrom_ends_after_length.
Qed.

Lemma input_ends_at_field_boundary_witness :
  Header.ReadFrom Header.zero (bytes.NewReader [])
  = (Return 0 (Some EOF), Header.zero, bytes.NewReader [])
  /\ Header.ReadFrom Header.zero (bytes.NewReader ProtocolSignature)
     = (Return 12 (Some EOF), Header.zero, bytes.NewReader [])
  /\ Header.ReadFrom Header.zero (bytes.NewReader (ProtocolSignature ++ [0x21]))
     = (Return 13 (Some EOF), Header.set_Command Header.zero (Z.land 0x21 15),
        bytes.NewReader [])
  /\ Header.ReadFrom Header.zero
       (bytes.NewReader (ProtocolSignature ++ [0x21; 0x11]))
     = (Return 14 (Some EOF), Header.set_Command Header.zero (Z.land 0x21 15),
        bytes.NewReader [])
  /\ Header.ReadFrom Header.zero
       (bytes.NewReader (ProtocolSignature ++ [0x21; 0x11; 0x00; 0x0C]))
     = (Return 16 (Some EOF), Header.set_Command Header.zero (Z.land 0x21 15),
        bytes.NewReader []).
Proof.
  apply (input_ends_at_field_boundary Header.zero 0x21 0x11 0x00 0x0C).
  - reflexivity.
  - right. reflexivity.
  - eval_nibbles. lia.
  - eval_nibbles. lia.
  - reflexivity.
Defined.

(** X5. A declared length of zero ends the decode, whatever the pair.  For a
    header that passes the field checks, with any valid family and transport
    (one of the six handled pairs included) and the length bytes 00 00,
    decoding succeeds after 16 bytes, stores the command and leaves the
    header's address exactly as it was before the call: a header value that
    is reused keeps the address of an earlier decode. *)
Theorem zero_length_keeps_address
  (h : Header.t) (vb pb : Z) (rest : list Z) :
  Z.shiftr vb 4 = 2 -> Z.land vb 15 = 0 \/ Z.land vb 15 = 1 ->
  0 <= Z.shiftr pb 4 <= 3 -> 0 <= Z.land pb 15 <= 2 ->
  Header.ReadFrom h
    (bytes.NewReader (ProtocolSignature ++ vb :: pb :: 0x00 :: 0x00 :: rest))
  = (Return 16 None,
     {| Header.Command := Z.land vb 15;
        Header.ProxyAddress := Header.ProxyAddress h |},
     bytes.NewReader rest).
Proof.
  intros Hv Hc Hf Ht. now apply ReadFrom_zero_length.
Qed.

Lemma zero_length_keeps_address_witness :
  Header.ReadFrom (PROXY (IPv4Address (localhost 42446) (localhost 1338)))
    (bytes.NewReader (ProtocolSignature ++ 0x20 :: 0x11 :: 0x00 :: 0x00 :: [0xFF]))
  = (Return 16 None,
     {| Header.Command := Z.land 0x20 15;
        Header.ProxyAddress :=
          Header.ProxyAddress
            (PROXY (IPv4Address (localhost 42446) (localhost 1338))) |},
     bytes.NewReader [0xFF]).
Proof.
  apply (zero_length_keeps_address
           (PROXY (IPv4Address (localhost 42446) (localhost 1338)))
           0x20 0x11 [0xFF]).
  - reflexivity.
  - left. reflexivity.
  - eval_nibbles. lia.
  - eval_nibbles. lia.
Defined.

(** X6. A header cut inside its length field can be accepted.  When the
    input ends after the first length byte and that byte is zero, the single
    read of the length delivers one byte without an error, the length is
    read as zero and decoding succeeds with 15 bytes consumed. *)
Theorem half_length_field_accepted (h : Header.t) (vb pb : Z) :
  Z.shiftr vb 4 = 2 -> Z.land vb 15 = 0 \/ Z.land vb 15 = 1 ->
  0 <= Z.shiftr pb 4 <= 3 -> 0 <= Z.land pb 15 <= 2 ->
  Header.ReadFrom h (bytes.NewReader (ProtocolSignature ++ [vb; pb; 0x00]))
  = (Return 15 None, Header.set_Command h (Z.land vb 15), bytes.NewReader []).
Proof.
  intros Hv Hc Hf Ht. now apply ReadFrom_half_length.
Qed.

Lemma half_length_field_accepted_witness :
  Header.ReadFrom Header.zero
    (bytes.NewReader (ProtocolSignature ++ [0x20; 0x00; 0x00]))
  = (Return 15 None, Header.set_Command Header.zero (Z.land 0x20 15),
     bytes.NewReader []).
Proof.
  apply (half_length_field_accepted Header.zero 0x20 0x00).
  - reflexivity.
  - left. reflexivity.
  - eval_nibbles. lia.
  - eval_nibbles. lia.
Defined.

(** ** An address block cut inside its last field *)

Lemma readUnix_short (src part : list Z) :
  length src = 108%nat -> (0 < length part <= 108)%nat ->
  readUnix (bytes.NewReader (src ++ part))
  = (Some {| SourceAddr := src;
             DestinationAddr := part ++ repeat 0 (108 - length part) |},
     108 + Z.of_nat (length part), None, bytes.NewReader []).
Proof.
  intros Hs Hp. unfold readUnix.
  rewrite call_Read_app by (assumption || lia). reduce_reads.
  rewrite call_Read_memory_short by lia. reflexivity.
Qed.

Lemma readIPsAndPorts_short (sip dip : list Z) (a b c : Z) (n : nat) :
  length sip = n -> length dip = n -> (0 < n)%nat ->
  readIPsAndPorts (bytes.NewReader (sip ++ dip ++ [a; b; c])) n
  = (Some {| sourceIP := Some sip; destinationIP := Some dip;
             sourcePort := binary.BigEndian.Uint16 [a; b];
             destinationPort := binary.BigEndian.Uint16 [c; 0] |},
     2 * Z.of_nat n + 3, None, bytes.NewReader []).
Proof.
  intros Hs Hd Hn. unfold readIPsAndPorts.
  rewrite !readIP_app by assumption. reduce_reads.
  rewrite readPort_cons. reduce_reads.
  change (readPort (bytes.NewReader [c]))
    with (binary.BigEndian.Uint16 [c; 0], 1, @None error, bytes.NewReader []).
  reduce_reads. do 3 f_equal. lia.
Qed.

(** X7. A UNIX address block that ends inside its second name is accepted.
    When the header passes the field checks, announces UNIX with STREAM or
    DGRAM and a length other than zero, and the input holds the 108 bytes of
    the source name followed by only 1 to 108 bytes of the destination name,
    decoding succeeds: the count is 124 plus the bytes present, and the
    destination name is what was present padded with NUL bytes to 108. *)
Theorem unix_block_cut_short
  (h : Header.t) (vb pb b0 b1 : Z) (src part : list Z) (network : string) :
  Z.shiftr vb 4 = 2 -> Z.land vb 15 = 0 \/ Z.land vb 15 = 1 ->
  Z.shiftr pb 4 = AddressFamilyUNIX ->
  (Z.land pb 15 = TransportProtocolSTREAM /\ network = "unixpacket"%string)
  \/ (Z.land pb 15 = TransportProtocolDGRAM /\ network = "unixgram"%string) ->
  int16_of_uint16 (binary.BigEndian.Uint16 [b0; b1]) <> 0 ->
  length src = 108%nat -> (0 < length part <= 108)%nat ->
  Header.ReadFrom h
    (bytes.NewReader (ProtocolSignature ++ vb :: pb :: b0 :: b1 :: src ++ part))
  = (Return (124 + Z.of_nat (length part)) None,
     {| Header.Command := Z.land vb 15;
        Header.ProxyAddress :=
          Some (UnixAddr
                  {| net.Name := string_of_bytes src; net.Net := network |}
                  {| net.Name :=
                       string_of_bytes (part ++ repeat 0 (108 - length part));
                     net.Net := network |}) |},
     bytes.NewReader []).
Proof.
  intros Hv Hc Hf [[Ht ->] | [Ht ->]] Hl Hs Hp;
    read_fixed_fields Hv Hc Hf Ht Hl;
    rewrite readUnix_short by assumption; reduce_reads;
    do 2 f_equal; f_equal; lia.
Qed.

Lemma unix_block_cut_short_witness :
  Header.ReadFrom Header.zero
    (bytes.NewReader (ProtocolSignature ++ 0x21 :: 0x31 :: 0x00 :: 0xD8
                      :: repeat 0x61 108 ++ [0x62]))
  = (Return (124 + Z.of_nat (length [0x62])) None,
     {| Header.Command := Z.land 0x21 15;
        Header.ProxyAddress :=
          Some (UnixAddr
                  {| net.Name := string_of_bytes (repeat 0x61 108);
                     net.Net := "unixpacket" |}
                  {| net.Name :=
                       string_of_bytes ([0x62] ++ repeat 0 (108 - length [0x62]));
                     net.Net := "unixpacket" |}) |},
     bytes.NewReader []).
Proof.
  apply (unix_block_cut_short Header.zero 0x21 0x31 0x00 0xD8
           (repeat 0x61 108) [0x62] "unixpacket").
  - reflexivity.
  - right. reflexivity.
  - reflexivity.
  - left. split; reflexivity.
  - discriminate.
  - reflexivity.
  - simpl. lia.
Defined.

(** X8. An IPv4 address block that lacks its last byte is accepted.  When the
    header passes the field checks, announces INET/STREAM and a length other
    than zero, and the input ends after the first byte [c] of the destination
    port, decoding succeeds with 27 bytes consumed and the destination port
    [256 * c]: the missing low byte is read as zero. *)
Theorem last_port_byte_missing
  (h : Header.t) (vb pb b0 b1 : Z) (sip dip : list Z) (a b c : Z) :
  Z.shiftr vb 4 = 2 -> Z.land vb 15 = 0 \/ Z.land vb 15 = 1 ->
  Z.shiftr pb 4 = AddressFamilyINET -> Z.land pb 15 = TransportProtocolSTREAM ->
  int16_of_uint16 (binary.BigEndian.Uint16 [b0; b1]) <> 0 ->
  length sip = 4%nat -> length dip = 4%nat -> 0 <= c < 256 ->
  Header.ReadFrom h
    (bytes.NewReader (ProtocolSignature ++ vb :: pb :: b0 :: b1 ::
                      sip ++ dip ++ [a; b; c]))
  = (Return 27 None,
     {| Header.Command := Z.land vb 15;
        Header.ProxyAddress :=
          Some (IPv4Address
                  (net.TCPAddr sip (binary.BigEndian.Uint16 [a; b]) EmptyString)
                  (net.TCPAddr dip (256 * c) EmptyString)) |},
     bytes.NewReader []).
Proof.
  intros Hv Hc Hf Ht Hl Hs Hd Hbyte. read_fixed_fields Hv Hc Hf Ht Hl.
  rewrite readIPsAndPorts_short by (assumption || lia). reduce_reads.
  rewrite (Uint16_value c 0) by lia. rewrite Z.add_0_r. reflexivity.
Qed.

Lemma last_port_byte_missing_witness :
  Header.ReadFrom Header.zero
    (bytes.NewReader (ProtocolSignature ++ 0x21 :: 0x11 :: 0x00 :: 0x0C ::
                      [127; 0; 0; 1] ++ [127; 0; 0; 1] ++ [0xA5; 0xCE; 0x05]))
  = (Return 27 None,
     {| Header.Command := Z.land 0x21 15;
        Header.ProxyAddress :=
          Some (IPv4Address
                  (net.TCPAddr [127; 0; 0; 1]
                     (binary.BigEndian.Uint16 [0xA5; 0xCE]) EmptyString)
                  (net.TCPAddr [127; 0; 0; 1] (256 * 0x05) EmptyString)) |},
     bytes.NewReader []).
Proof.
  apply (last_port_byte_missing Header.zero 0x21 0x11 0x00 0x0C
           [127; 0; 0; 1] [127; 0; 0; 1] 0xA5 0xCE 0x05).
  - reflexivity.
  - right. reflexivity.
  - reflexivity.
  - reflexivity.
  - discriminate.
  - reflexivity.
  - reflexivity.
  - lia.
Defined.

(** ** What a round trip does to an address *)

Lemma alignIP_length (ip : list Z) :
  (length ip <= 16)%nat -> length (alignIP ip) = 16%nat.
Proof.
  intros Hlen. unfold alignIP.
  destruct (Nat.ltb_spec (length ip) 16) as [Hlt | Hge].
  - rewrite length_app, make_length. lia.
  - lia.
Qed.

Lemma alignIP_tail_length (ip : list Z) :
  (length ip <= 16)%nat -> length (skipn 12 (alignIP ip)) = 4%nat.
Proof. intros Hlen. rewrite length_skipn, alignIP_length by assumption. lia. Qed.

(** The two bytes written for a port are read back as the port modulo
    65536. *)
Lemma Uint16_any_port (p : Z) :
  binary.BigEndian.Uint16
    [byte_of (Z.shiftr (uint16_of_int p) 8); byte_of (uint16_of_int p)]
  = uint16_of_int p.
Proof.
  pose proof (Z.mod_pos_bound p 65536 ltac:(lia)) as Hp.
  rewrite <- (Uint16_port_bytes (uint16_of_int p)) at 3 by exact Hp.
  unfold uint16_of_int. now rewrite Z.mod_mod by lia.
Qed.

Lemma encode_IPv4_endpoints (u1 u2 : bool) (s d : list Z) (sp dp : Z)
  (sz dz : string) :
  encode (PROXY (IPv4Address (endpoint u1 s sp sz) (endpoint u2 d dp dz)))
  = (Return (20 + Z.of_nat (length (skipn 12 (alignIP s)))
                + Z.of_nat (length (skipn 12 (alignIP d)))) None,
     bytes.NewBuffer (ip_wire (if u1 then 0x12 else 0x11) 12
                              (skipn 12 (alignIP s)) (skipn 12 (alignIP d))
                              sp dp)).
Proof. destruct u1, u2; unfold endpoint; encode_ip. Qed.

Lemma encode_IPv6_endpoints (u1 u2 : bool) (s d : list Z) (sp dp : Z)
  (sz dz : string) :
  encode (PROXY (IPv6Address (endpoint u1 s sp sz) (endpoint u2 d dp dz)))
  = (Return (20 + Z.of_nat (length (alignIP s))
                + Z.of_nat (length (alignIP d))) None,
     bytes.NewBuffer (ip_wire (if u1 then 0x22 else 0x21) 36
                              (alignIP s) (alignIP d) sp dp)).
Proof. destruct u1, u2; unfold endpoint; encode_ip. Qed.

(** X9. What a round trip does to an IPv4 address variant.  For TCP or UDP
    endpoints whose IPs have at most 16 bytes, encoding the PROXY header and
    decoding the 28 bytes gives a header whose IPs are the last 4 bytes of
    the IPs left-padded to 16 ([skipn 12 (alignIP ip)]: a 16-byte IPv4 IP
    comes back in its 4-byte form), whose ports are the ports modulo 65536,
    whose zones are empty, and whose two endpoints are both of the kind of
    the source endpoint. *)
Theorem ipv4_round_trip_normalises
  (u1 u2 : bool) (s d : list Z) (sp dp : Z) (sz dz : string) :
  (length s <= 16)%nat -> (length d <= 16)%nat ->
  decode (bytes.Bytes
            (snd (encode (PROXY (IPv4Address (endpoint u1 s sp sz)
                                             (endpoint u2 d dp dz))))))
  = (Return 28 None,
     PROXY (IPv4Address
              (endpoint u1 (skipn 12 (alignIP s)) (uint16_of_int sp) EmptyString)
              (endpoint u1 (skipn 12 (alignIP d)) (uint16_of_int dp) EmptyString)),
     bytes.NewReader []).
Proof.
  intros Hs Hd. rewrite encode_IPv4_endpoints. decode_ip_wire.
  pose proof (alignIP_tail_length s Hs). pose proof (alignIP_tail_length d Hd).
  destruct u1.
  - rewrite ReadFrom_INET_DGRAM by (reflexivity || discriminate || auto).
    now rewrite !Uint16_any_port.
  - rewrite ReadFrom_INET_STREAM by (reflexivity || discriminate || auto).
    now rewrite !Uint16_any_port.
Qed.

Lemma ipv4_round_trip_normalises_witness :
  decode (bytes.Bytes
            (snd (encode
                    (PROXY (IPv4Address
                              (endpoint false
                                 [0; 0; 0; 0; 0; 0; 0; 0; 0; 0; 0xff; 0xff;
                                  123; 123; 123; 123] 55555 EmptyString)
                              (endpoint true [127; 0; 0; 1] 8080 "eth0"))))))
  = (Return 28 None,
     PROXY (IPv4Address
              (endpoint false
                 (skipn 12 (alignIP [0; 0; 0; 0; 0; 0; 0; 0; 0; 0; 0xff; 0xff;
                                     123; 123; 123; 123]))
                 (uint16_of_int 55555) EmptyString)
              (endpoint false (skipn 12 (alignIP [127; 0; 0; 1]))
                 (uint16_of_int 8080) EmptyString)),
     bytes.NewReader []).
Proof.
  apply (ipv4_round_trip_normalises false true
           [0; 0; 0; 0; 0; 0; 0; 0; 0; 0; 0xff; 0xff; 123; 123; 123; 123]
           [127; 0; 0; 1] 55555 8080 EmptyString "eth0");
    simpl; lia.
Defined.

(** X10. What a round trip does to an IPv6 address variant.  For TCP or UDP
    endpoints whose IPs have at most 16 bytes, encoding the PROXY header and
    decoding the 52 bytes gives a header whose IPs are the IPs left-padded
    with zeros to 16 bytes ([alignIP ip]: a 16-byte IP is unchanged), whose
    ports are the ports modulo 65536, whose zones are empty, and whose two
    endpoints are both of the kind of the source endpoint. *)
Theorem ipv6_round_trip_normalises
  (u1 u2 : bool) (s d : list Z) (sp dp : Z) (sz dz : string) :
  (length s <= 16)%nat -> (length d <= 16)%nat ->
  decode (bytes.Bytes
            (snd (encode (PROXY (IPv6Address (endpoint u1 s sp sz)
                                             (endpoint u2 d dp dz))))))
  = (Return 52 None,
     PROXY (IPv6Address
              (endpoint u1 (alignIP s) (uint16_of_int sp) EmptyString)
              (endpoint u1 (alignIP d) (uint16_of_int dp) EmptyString)),
     bytes.NewReader []).
Proof.
  intros Hs Hd. rewrite encode_IPv6_endpoints. decode_ip_wire.
  pose proof (alignIP_length s Hs). pose proof (alignIP_length d Hd).
  destruct u1.
  - rewrite ReadFrom_INET6_DGRAM by (reflexivity || discriminate || auto).
    now rewrite !Uint16_any_port.
  - rewrite ReadFrom_INET6_STREAM by (reflexivity || discriminate || auto).
    now rewrite !Uint16_any_port.
Qed.

Lemma ipv6_round_trip_normalises_witness :
  decode (bytes.Bytes
            (snd (encode
                    (PROXY (IPv6Address
                              (endpoint true [127; 0; 0; 1] 70000 EmptyString)
                              (endpoint true
                                 [0; 0; 0; 0; 0; 0; 0; 0; 0; 0; 0; 0; 0; 0; 0; 1]
                                 53 EmptyString))))))
  = (Return 52 None,
     PROXY (IPv6Address
              (endpoint true (alignIP [127; 0; 0; 1]) (uint16_of_int 70000)
                 EmptyString)
              (endpoint true
                 (alignIP [0; 0; 0; 0; 0; 0; 0; 0; 0; 0; 0; 0; 0; 0; 0; 1])
                 (uint16_of_int 53) EmptyString)),
     bytes.NewReader []).
Proof.
  apply (ipv6_round_trip_normalises true true [127; 0; 0; 1]
           [0; 0; 0; 0; 0; 0; 0; 0; 0; 0; 0; 0; 0; 0; 0; 1]
           70000 53 EmptyString EmptyString);
    simpl; lia.
Defined.

(** X11. What a round trip does to a UNIX address variant, for every pair of
    UNIX addresses.  Encoding the PROXY header gives 232 bytes and decoding
    them gives a header whose names are the 108-byte blocks (a shorter name
    padded with NUL bytes, a longer one cut), and whose network is, on both
    sides, "unixgram" when the source's network is "unixgram" and
    "unixpacket" otherwise; the destination's network is not transmitted. *)
Theorem unix_round_trip_normalises (src dst : net.UnixAddr) :
  decode (bytes.Bytes (snd (encode (PROXY (UnixAddr src dst)))))
  = (Return 232 None,
     PROXY (UnixAddr
              {| net.Name :=
                   string_of_bytes
                     (copy (make 108) (bytes_of_string (net.Name src)));
                 net.Net := if String.eqb (net.Net src) "unixgram"
                            then "unixgram" else "unixpacket" |}
              {| net.Name :=
                   string_of_bytes
                     (copy (make 108) (bytes_of_string (net.Name dst)));
                 net.Net := if String.eqb (net.Net src) "unixgram"
                            then "unixgram" else "unixpacket" |}),
     bytes.NewReader []).
Proof.
  rewrite encode_Unix. cbn [snd bytes.Bytes]. unfold decode, unix_wire.
  rewrite <- (app_nil_r (copy (make 108) (bytes_of_string (net.Name dst)))).
  destruct (String.eqb (net.Net src) "unixgram").
  - rewrite ReadFrom_UNIX_DGRAM
      by (reflexivity || discriminate || auto using copy_make_length).
    now rewrite app_nil_r.
  - rewrite ReadFrom_UNIX_STREAM
      by (reflexivity || discriminate || auto using copy_make_length).
    now rewrite app_nil_r.
Qed.

(** ** From the wire and back *)

Lemma PutUint16_Uint16 (a b : Z) :
  0 <= a < 256 -> 0 <= b < 256 ->
  binary.BigEndian.PutUint16 (uint16_of_int (binary.BigEndian.Uint16 [a; b]))
  = [a; b].
Proof.
  intros Ha Hb. rewrite Uint16_value by assumption.
  unfold binary.BigEndian.PutUint16, uint16_of_int, byte_of.
  rewrite (Z.mod_small (256 * a + b)) by lia.
  rewrite Z.shiftr_div_pow2 by lia. change (2 ^ 8) with 256.
  replace ((256 * a + b) / 256) with a
    by (apply Z.div_unique with b; lia).
  rewrite (Z.mod_small a) by lia.
  replace ((256 * a + b) mod 256) with b
    by (apply Z.mod_unique with a; lia).
  reflexivity.
Qed.

(** [[]byte(string(b))] is [b] for a slice of bytes. *)
Lemma bytes_of_string_of_bytes (b : list Z) :
  Forall (fun x => 0 <= x < 256) b ->
  bytes_of_string (string_of_bytes b) = b.
Proof.
  unfold bytes_of_string, string_of_bytes.
  rewrite list_ascii_of_string_of_list_ascii, map_map.
  induction 1 as [|x b Hx Hb IH]; [reflexivity|].
  cbn [map]. rewrite IH. f_equal.
  rewrite N_ascii_embedding by lia. apply Z2N.id. lia.
Qed.

Lemma string_of_bytes_length (b : list Z) :
  String.length (string_of_bytes b) = length b.
Proof.
  unfold string_of_bytes. induction b as [|x b IH]; simpl; congruence.
Qed.

Lemma four_bytes (a b c d : Z) :
  Forall (fun x => 0 <= x < 256) [a; b; c; d] ->
  (0 <= a < 256 /\ 0 <= b < 256) /\ (0 <= c < 256 /\ 0 <= d < 256).
Proof.
  intros H. inversion_clear H as [|? ? Ha H1]. inversion_clear H1 as [|? ? Hb H2].
  inversion_clear H2 as [|? ? Hc H3]. inversion_clear H3 as [|? ? Hd _]. auto.
Qed.

Ltac wire_ip encode_lemma decode_lemma align :=
  match goal with
  | Hs : length ?sip = _, Hd : length ?dip = _,
    Hab : 0 <= ?a < 256 /\ 0 <= ?b < 256, Hcd : 0 <= ?c < 256 /\ 0 <= ?d < 256
    |- _ =>
      destruct Hab as [Ha Hb]; destruct Hcd as [Hc Hd'];
      cbn [app]; split;
      [ unfold decode; rewrite decode_lemma
          by (reflexivity || discriminate || auto); reflexivity
      | rewrite encode_lemma, ?align, Hs, Hd by assumption;
        unfold ip_wire; rewrite !PutUint16_Uint16 by assumption; reflexivity ]
  end.

Ltac split_block n payload Hlen Hbytes :=
  let sip := fresh "sip" in
  let dip := fresh "dip" in
  let a := fresh "a" in let b := fresh "b" in
  let c := fresh "c" in let d := fresh "d" in
  let Hs := fresh "Hs" in let Hd := fresh "Hd" in
  destruct (split_ip_block n payload Hlen)
    as (sip & dip & a & b & c & d & -> & Hs & Hd);
  apply Forall_app in Hbytes as [_ Hbytes];
  apply Forall_app in Hbytes as [_ Hbytes];
  apply four_bytes in Hbytes as [? ?].

(** X12. From the wire and back.  For each of the six handled protocol bytes,
    a header made of the signature, the byte 0x21, the protocol byte, the
    length of the variant's fixed size and a payload of that many bytes (each
    in 0..255) is decoded without error into a header whose encoding is
    exactly the same bytes. *)
Theorem wire_round_trip (pb : Z) (payload : list Z) :
  Forall (fun x => 0 <= x < 256) payload ->
  ((pb = 0x11 \/ pb = 0x12) /\ length payload = 12%nat)
  \/ ((pb = 0x21 \/ pb = 0x22) /\ length payload = 36%nat)
  \/ ((pb = 0x31 \/ pb = 0x32) /\ length payload = 216%nat) ->
  exists h : Header.t,
    decode (ProtocolSignature ++ 0x21 :: pb :: 0x00
            :: Z.of_nat (length payload) :: payload)
    = (Return (16 + Z.of_nat (length payload)) None, h, bytes.NewReader [])
    /\ encode h
       = (Return (16 + Z.of_nat (length payload)) None,
          bytes.NewBuffer (ProtocolSignature ++ 0x21 :: pb :: 0x00
                           :: Z.of_nat (length payload) :: payload)).
Proof.
  intros Hbytes [[Hpb Hlen] | [[Hpb Hlen] | [Hpb Hlen]]]; rewrite Hlen.
  - change (Z.of_nat 12) with 12. split_block 4%nat payload Hlen Hbytes.
    destruct Hpb as [-> | ->].
    + eexists (PROXY (IPv4Address (net.TCPAddr _ _ EmptyString)
                                  (net.TCPAddr _ _ EmptyString))).
      wire_ip encode_IPv4_TCP ReadFrom_INET_STREAM alignIP_4.
    + eexists (PROXY (IPv4Address (net.UDPAddr _ _ EmptyString)
                                  (net.UDPAddr _ _ EmptyString))).
      wire_ip encode_IPv4_UDP ReadFrom_INET_DGRAM alignIP_4.
  - change (Z.of_nat 36) with 36. split_block 16%nat payload Hlen Hbytes.
    destruct Hpb as [-> | ->].
    + eexists (PROXY (IPv6Address (net.TCPAddr _ _ EmptyString)
                                  (net.TCPAddr _ _ EmptyString))).
      wire_ip encode_IPv6_TCP ReadFrom_INET6_STREAM alignIP_16.
    + eexists (PROXY (IPv6Address (net.UDPAddr _ _ EmptyString)
                                  (net.UDPAddr _ _ EmptyString))).
      wire_ip encode_IPv6_UDP ReadFrom_INET6_DGRAM alignIP_16.
  - change (Z.of_nat 216) with 216.
    destruct (split_unix_block payload Hlen) as (src & dst & -> & Hs & Hd).
    apply Forall_app in Hbytes as [Hsb Hdb].
    replace (src ++ dst) with (src ++ dst ++ []) by (now rewrite app_nil_r).
    destruct Hpb as [-> | ->].
    + eexists (PROXY (UnixAddr {| net.Name := _; net.Net := "unixpacket" |}
                               {| net.Name := _; net.Net := "unixpacket" |})).
      split.
      * unfold decode. rewrite ReadFrom_UNIX_STREAM
          by (reflexivity || discriminate || auto). reflexivity.
      * rewrite encode_Unix. unfold unix_wire. cbn [net.Name net.Net].
        rewrite !bytes_of_string_of_bytes, !copy_make by assumption.
        now rewrite app_nil_r.
    + eexists (PROXY (UnixAddr {| net.Name := _; net.Net := "unixgram" |}
                               {| net.Name := _; net.Net := "unixgram" |})).
      split.
      * unfold decode. rewrite ReadFrom_UNIX_DGRAM
          by (reflexivity || discriminate || auto). reflexivity.
      * rewrite encode_Unix. unfold unix_wire. cbn [net.Name net.Net].
        rewrite !bytes_of_string_of_bytes, !copy_make by assumption.
        now rewrite app_nil_r.
Qed.

Lemma wire_round_trip_witness :
  exists h : Header.t,
    decode (ProtocolSignature ++ 0x21 :: 0x12 :: 0x00
            :: Z.of_nat (length [10; 0; 0; 1; 10; 0; 0; 2; 0; 53; 0xC0; 0x01])
            :: [10; 0; 0; 1; 10; 0; 0; 2; 0; 53; 0xC0; 0x01])
    = (Return
         (16 + Z.of_nat (length [10; 0; 0; 1; 10; 0; 0; 2; 0; 53; 0xC0; 0x01]))
         None, h, bytes.NewReader [])
    /\ encode h
       = (Return
            (16 + Z.of_nat (length [10; 0; 0; 1; 10; 0; 0; 2; 0; 53; 0xC0; 0x01]))
            None,
          bytes.NewBuffer
            (ProtocolSignature ++ 0x21 :: 0x12 :: 0x00
             :: Z.of_nat (length [10; 0; 0; 1; 10; 0; 0; 2; 0; 53; 0xC0; 0x01])
             :: [10; 0; 0; 1; 10; 0; 0; 2; 0; 53; 0xC0; 0x01])).
Proof.
  apply (wire_round_trip 0x12 [10; 0; 0; 1; 10; 0; 0; 2; 0; 53; 0xC0; 0x01]).
  - repeat constructor; lia.
  - left. split; [right; reflexivity | reflexivity].
Defined.

(** ** Headers whose command is not PROXY *)

(** [WriteTo] for a command other than PROXY with an address attached: the
    address only provides the protocol byte. *)
Lemma WriteTo_without_payload
  (c : Command) (a : ProxyAddress) (p : ProtocolByte.t) (w : bytes.Buffer) :
  c <> CommandPROXY -> getSignature a = Ok p ->
  Header.WriteTo {| Header.Command := c; Header.ProxyAddress := Some a |} w
  = (Return 16 None,
     bytes.NewBuffer
       (bytes.Bytes w ++ ProtocolSignature
        ++ [Z.lor 0x20 (byte_of c);
            Z.lor (byte_of (Z.shiftl (ProtocolByte.AddressFamily p) 4))
                  (byte_of (ProtocolByte.TransportProtocol p));
            0x00; 0x00])).
Proof.
  intros Hc Hsig. unfold Header.WriteTo.
  cbn [Header.Command Header.ProxyAddress]. rewrite Hsig.
  rewrite (eqb_neq_false _ _ Hc).
  unfold VersionByte.WriteTo, ProtocolByte.WriteTo, AddressLength.WriteTo,
    binary.Write, Write, bytes_Buffer, bytes.Buffer_Write.
  cbn [bytes.Bytes VersionByte.ProtocolVersion VersionByte.Command].
  cbv beta iota zeta. f_equal. f_equal. now rewrite <- !app_assoc.
Qed.

(** The protocol byte of an address names one of the six handled pairs. *)
Lemma getSignature_pair (a : ProxyAddress) (p : ProtocolByte.t) :
  getSignature a = Ok p ->
  exists f t, p = Header.pb f t /\ (f = 1 \/ f = 2 \/ f = 3) /\ (t = 1 \/ t = 2).
Proof.
  destruct a as [src dst | src dst | src dst]; cbn [getSignature];
    unfold IPv4Address.getSignature, IPv6Address.getSignature,
      UnixAddr.getSignature, getTransportProtocol;
    try destruct src as [? ? ? | ? ? ? | u | ];
    try destruct (String.eqb (net.Net _) "unixgram");
    intros E; try discriminate E; injection E as <-;
    eexists _, _; (split; [reflexivity|]); cbv; auto.
Qed.

(** X13. A LOCAL header loses its address in a round trip.  When the attached
    address has a protocol byte (its source endpoint is a TCP, UDP or UNIX
    address), the 16 bytes [WriteTo] produces decode, without error, to the
    LOCAL header with no address. *)
Theorem local_round_trip_drops_address (a : ProxyAddress) (p : ProtocolByte.t) :
  getSignature a = Ok p ->
  decode (bytes.Bytes
            (snd (encode {| Header.Command := CommandLOCAL;
                            Header.ProxyAddress := Some a |})))
  = (Return 16 None,
     {| Header.Command := CommandLOCAL; Header.ProxyAddress := None |},
     bytes.NewReader []).
Proof.
  intros Hsig. unfold encode.
  rewrite (WriteTo_without_payload CommandLOCAL a p) by (discriminate || assumption).
  destruct (getSignature_pair a p Hsig) as (f & t & -> & Hf & Ht).
  destruct Hf as [-> | [-> | ->]], Ht as [-> | ->]; reflexivity.
Qed.

Lemma local_round_trip_drops_address_witness :
  decode (bytes.Bytes
            (snd (encode {| Header.Command := CommandLOCAL;
                            Header.ProxyAddress :=
                              Some (IPv4Address (localhost 42446)
                                                (localhost 1338)) |})))
  = (Return 16 None,
     {| Header.Command := CommandLOCAL; Header.ProxyAddress := None |},
     bytes.NewReader []).
Proof.
  apply (local_round_trip_drops_address
           (IPv4Address (localhost 42446) (localhost 1338))
           (Header.pb AddressFamilyINET TransportProtocolSTREAM)).
  reflexivity.
Defined.

(** X14. [WriteTo] does not check the command.  A header with a command
    between 2 and 15 and an address that has a protocol byte is written
    without error as 16 bytes (as a header without payload), and decoding
    those bytes fails after 13 bytes with the unsupported-command error for
    that command. *)
Theorem unknown_command_is_written_and_rejected
  (c : Command) (a : ProxyAddress) (p : ProtocolByte.t) :
  2 <= c <= 15 -> getSignature a = Ok p ->
  fst (encode {| Header.Command := c; Header.ProxyAddress := Some a |})
  = Return 16 None
  /\ fst (fst (decode (bytes.Bytes
                 (snd (encode {| Header.Command := c;
                                 Header.ProxyAddress := Some a |})))))
     = Return 13 (Some (UnsupportedCommand c)).
Proof.
  intros Hc Hsig. unfold encode.
  rewrite (WriteTo_without_payload c a p) by (assumption || (unfold CommandPROXY; lia)).
  split; [reflexivity|]. cbn [snd bytes.Bytes app]. unfold decode.
  assert (Hbyte : Z.shiftr (Z.lor 32 (byte_of c)) 4 = 2
                  /\ Z.land (Z.lor 32 (byte_of c)) 15 = c).
  { assert (c = 2 \/ c = 3 \/ c = 4 \/ c = 5 \/ c = 6 \/ c = 7 \/ c = 8
            \/ c = 9 \/ c = 10 \/ c = 11 \/ c = 12 \/ c = 13 \/ c = 14
            \/ c = 15) as Hcases by lia.
    repeat (destruct Hcases as [-> | Hcases]; [split; reflexivity|]).
    subst c. split; reflexivity. }
  destruct Hbyte as [Hv Hcmd].
  rewrite ReadFrom_bad_command by (rewrite ?Hcmd; assumption || lia).
  now rewrite Hcmd.
Qed.

Lemma unknown_command_is_written_and_rejected_witness :
  fst (encode {| Header.Command := 5;
                 Header.ProxyAddress :=
                   Some (IPv4Address (localhost 42446) (localhost 1338)) |})
  = Return 16 None
  /\ fst (fst (decode (bytes.Bytes
                 (snd (encode {| Header.Command := 5;
                                 Header.ProxyAddress :=
                                   Some (IPv4Address (localhost 42446)
                                                     (localhost 1338)) |})))))
     = Return 13 (Some (UnsupportedCommand 5)).
Proof.
  apply (unknown_command_is_written_and_rejected 5
           (IPv4Address (localhost 42446) (localhost 1338))
           (Header.pb AddressFamilyINET TransportProtocolSTREAM)).
  - lia.
  - reflexivity.
Defined.

(** ** What an encode appends *)

(** On a buffer [WriteTo] either panics or returns without error the number
    of bytes it appended. *)
Lemma WriteTo_buffer_outcome (h : Header.t) (w : bytes.Buffer) :
  match Header.WriteTo h w with
  | (Return m err, w') =>
      err = None
      /\ exists bs : list Z,
           bytes.Bytes w' = bytes.Bytes w ++ bs /\ m = Z.of_nat (length bs)
  | (Panic _, _) => True
  end.
Proof.
  destruct h as [c [a|]]; [|now rewrite WriteTo_no_address].
  unfold Header.WriteTo. cbn [Header.Command Header.ProxyAddress].
  destruct a as [src dst | src dst | src dst];
    [ destruct src as [? ? ? | ? ? ? | [? ?] | ], dst as [? ? ? | ? ? ? | [? ?] | ]
    | destruct src as [? ? ? | ? ? ? | [? ?] | ], dst as [? ? ? | ? ? ? | [? ?] | ]
    | destruct src as [sname snet], dst as [dname dnet] ];
    destruct (c =? CommandPROXY); write_to_buffer;
    try destruct (String.eqb _ "unixgram"); cbv beta iota;
    try exact I;
    (split; [reflexivity|]);
    eexists; (split; [rewrite <- !app_assoc; reflexivity|]);
    unfold binary.BigEndian.PutUint16;
    rewrite ?length_app, ?length_cons, ?length_nil;
    change (length ProtocolSignature) with 12%nat; lia.
Qed.

(** X15. Whenever [Header.WriteTo] returns from writing into a buffer, for any
    header whatever, it returns no error, the buffer is its former content
    followed by the bytes written, and the count returned is the number of
    those bytes. *)
Theorem WriteTo_appends_what_it_counts
  (h : Header.t) (w w' : bytes.Buffer) (m : Z) (err : option error) :
  Header.WriteTo h w = (Return m err, w') ->
  err = None
  /\ exists bs : list Z,
       bytes.Bytes w' = bytes.Bytes w ++ bs /\ m = Z.of_nat (length bs).
Proof.
  intros E. pose proof (WriteTo_buffer_outcome h w) as H.
  rewrite E in H. exact H.
Qed.

Lemma WriteTo_appends_what_it_counts_witness :
  @None error = None
  /\ exists bs : list Z,
       bytes.Bytes (bytes.NewBuffer ([1; 2] ++ canonical_vector))
       = bytes.Bytes (bytes.NewBuffer [1; 2]) ++ bs
       /\ 28 = Z.of_nat (length bs).
Proof.
  apply (WriteTo_appends_what_it_counts
           (PROXY (IPv4Address (localhost 42446) (localhost 1338)))
           (bytes.NewBuffer [1; 2])
           (bytes.NewBuffer ([1; 2] ++ canonical_vector)) 28 None).
  reflexivity.
Defined.

(** X16. When [Header.WriteTo] panics, for the headers of the model: no
    address, or an address variant whose endpoints are not nil pointers.
    Among these, writing into a buffer returns a count and no error exactly
    for the headers that are [encodable]: an address is attached and, for
    the command PROXY, both endpoints of an IP variant are TCP or UDP
    addresses (of a UNIX variant no more is asked), and for every other
    command the source endpoint is a TCP, UDP or UNIX address.  For every
    other header of the model the call panics: [WriteTo] never reports such
    a header with an error value. *)
Theorem WriteTo_panics_unless_encodable (h : Header.t) (w : bytes.Buffer) :
  if encodable h
  then exists m : Z, fst (Header.WriteTo h w) = Return m None
  else exists msg : string, fst (Header.WriteTo h w) = Panic msg.
Proof.
  destruct h as [c [a|]];
    [|rewrite WriteTo_no_address; cbn; eexists; reflexivity].
  unfold Header.WriteTo, encodable. cbn [Header.Command Header.ProxyAddress].
  destruct a as [src dst | src dst | src dst];
    [ destruct src as [? ? ? | ? ? ? | [? ?] | ], dst as [? ? ? | ? ? ? | [? ?] | ]
    | destruct src as [? ? ? | ? ? ? | [? ?] | ], dst as [? ? ? | ? ? ? | [? ?] | ]
    | destruct src as [sname snet], dst as [dname dnet] ];
    destruct (c =? CommandPROXY); write_to_buffer; cbn [has_port andb];
    try destruct (String.eqb _ "unixgram"); cbv beta iota; cbn [fst];
    eexists; reflexivity.
Qed.

(** ** The fields on their own *)

(** X17. The length field round-trips over the whole range of its type.  For
    every [a] from -32768 to 32767, [AddressLength.WriteTo] appends two bytes
    and reports 2 bytes and no error, and [AddressLength.ReadFrom] on those
    two bytes stores [a] again, negative values included. *)
Theorem AddressLength_round_trip (a a0 : Z) (rest : list Z) (w : bytes.Buffer) :
  -32768 <= a <= 32767 ->
  exists b0 b1 : Z,
    AddressLength.WriteTo a w
    = (2, None, bytes.NewBuffer (bytes.Bytes w ++ [b0; b1]))
    /\ AddressLength.ReadFrom a0 (bytes.NewReader (b0 :: b1 :: rest))
       = (a, 2, None, bytes.NewReader rest).
Proof.
  intros Ha. eexists _, _. split; [reflexivity|].
  rewrite AddressLength_ReadFrom_cons, Uint16_any_port.
  do 3 f_equal. unfold int16_of_uint16, uint16_of_int.
  rewrite Zplus_mod_idemp_l. rewrite Z.mod_small; lia.
Qed.

Lemma AddressLength_round_trip_witness :
  exists b0 b1 : Z,
    AddressLength.WriteTo (-2) (bytes.NewBuffer [7])
    = (2, None, bytes.NewBuffer (bytes.Bytes (bytes.NewBuffer [7]) ++ [b0; b1]))
    /\ AddressLength.ReadFrom 0 (bytes.NewReader (b0 :: b1 :: [9]))
       = (-2, 2, None, bytes.NewReader [9]).
Proof.
  apply (AddressLength_round_trip (-2) 0 [9] (bytes.NewBuffer [7])). lia.
Defined.

(** X18. The two nibble-packed fields round-trip.  For a high and a low value
    both in 0..15, [VersionByte.WriteTo] and [ProtocolByte.WriteTo] write the
    same single byte, in 0..255, and [VersionByte.ReadFrom] and
    [ProtocolByte.ReadFrom] on that byte give back the two values. *)
Theorem nibble_fields_round_trip
  (hi lo : Z) (v0 : VersionByte.t) (p0 : ProtocolByte.t) (rest : list Z) :
  0 <= hi < 16 -> 0 <= lo < 16 ->
  exists b : Z,
    0 <= b < 256
    /\ VersionByte.WriteTo
         {| VersionByte.ProtocolVersion := hi; VersionByte.Command := lo |}
         (bytes.NewBuffer [])
       = (1, None, bytes.NewBuffer [b])
    /\ VersionByte.ReadFrom v0 (bytes.NewReader (b :: rest))
       = ({| VersionByte.ProtocolVersion := hi; VersionByte.Command := lo |},
          1, None, bytes.NewReader rest)
    /\ ProtocolByte.WriteTo (Header.pb hi lo) (bytes.NewBuffer [])
       = (1, None, bytes.NewBuffer [b])
    /\ ProtocolByte.ReadFrom p0 (bytes.NewReader (b :: rest))
       = (Header.pb hi lo, 1, None, bytes.NewReader rest).
Proof.
  intros Hhi Hlo.
  exists (Z.lor (byte_of (Z.shiftl hi 4)) (byte_of lo)).
  assert (Hb : 0 <= Z.lor (byte_of (Z.shiftl hi 4)) (byte_of lo) < 256
               /\ Z.shiftr (Z.lor (byte_of (Z.shiftl hi 4)) (byte_of lo)) 4 = hi
               /\ Z.land (Z.lor (byte_of (Z.shiftl hi 4)) (byte_of lo)) 15 = lo).
  { assert (hi = 0 \/ hi = 1 \/ hi = 2 \/ hi = 3 \/ hi = 4 \/ hi = 5 \/ hi = 6
            \/ hi = 7 \/ hi = 8 \/ hi = 9 \/ hi = 10 \/ hi = 11 \/ hi = 12
            \/ hi = 13 \/ hi = 14 \/ hi = 15) as Hh by lia.
    assert (lo = 0 \/ lo = 1 \/ lo = 2 \/ lo = 3 \/ lo = 4 \/ lo = 5 \/ lo = 6
            \/ lo = 7 \/ lo = 8 \/ lo = 9 \/ lo = 10 \/ lo = 11 \/ lo = 12
            \/ lo = 13 \/ lo = 14 \/ lo = 15) as Hl by lia.
    clear Hhi Hlo.
    repeat (destruct Hh as [-> | Hh]);
      repeat (destruct Hl as [-> | Hl]); subst; vm_compute; intuition congruence. }
  destruct Hb as (Hrange & Hs & Hl).
  split; [exact Hrange|]. split; [reflexivity|].
  rewrite VersionByte_ReadFrom_cons, ProtocolByte_ReadFrom_cons, Hs, Hl.
  repeat split.
Qed.

Lemma nibble_fields_round_trip_witness :
  exists b : Z,
    0 <= b < 256
    /\ VersionByte.WriteTo
         {| VersionByte.ProtocolVersion := 2; VersionByte.Command := 1 |}
         (bytes.NewBuffer [])
       = (1, None, bytes.NewBuffer [b])
    /\ VersionByte.ReadFrom VersionByte.zero (bytes.NewReader (b :: [5]))
       = ({| VersionByte.ProtocolVersion := 2; VersionByte.Command := 1 |},
          1, None, bytes.NewReader [5])
    /\ ProtocolByte.WriteTo (Header.pb 2 1) (bytes.NewBuffer [])
       = (1, None, bytes.NewBuffer [b])
    /\ ProtocolByte.ReadFrom ProtocolByte.zero (bytes.NewReader (b :: [5]))
       = (Header.pb 2 1, 1, None, bytes.NewReader [5]).
Proof.
  apply (nibble_fields_round_trip 2 1 VersionByte.zero ProtocolByte.zero [5]);
    lia.
Defined.

(** ** Addresses built from a source of bytes *)

Lemma copy_length (dst src : list Z) : length (copy dst src) = length dst.
Proof.
  unfold copy. rewrite length_app, length_firstn, length_skipn. lia.
Qed.

Lemma Forall_firstn_skipn (P : Z -> Prop) (n : nat) (l : list Z) :
  Forall P l -> Forall P (firstn n l) /\ Forall P (skipn n l).
Proof.
  intros H. rewrite <- (firstn_skipn n l) in H. now apply Forall_app in H.
Qed.

Lemma Uint16_range (a b : Z) :
  0 <= a < 256 -> 0 <= b < 256 ->
  0 <= binary.BigEndian.Uint16 [a; b] < 65536.
Proof. intros Ha Hb. rewrite Uint16_value by assumption. lia. Qed.

Lemma command_ok_inv (c : Z) :
  negb (c =? CommandLOCAL) && negb (c =? CommandPROXY) = false ->
  c = CommandLOCAL \/ c = CommandPROXY.
Proof.
  intros H. apply andb_false_iff in H as [H | H];
    apply negb_false_iff, Z.eqb_eq in H; auto.
Qed.

Lemma port_ok_range (p : Z) : 0 <= p < 65536 -> port_ok p = true.
Proof.
  intros Hp. unfold port_ok. apply andb_true_iff. split.
  - apply Z.leb_le. lia.
  - apply Z.ltb_lt. lia.
Qed.

Lemma ip_ok_TCP (n : nat) (ip : list Z) (port : Z) :
  length ip = n -> 0 <= port < 65536 ->
  ip_ok n (net.TCPAddr ip port EmptyString) = true.
Proof.
  intros Hl Hp. cbn [ip_ok]. now rewrite Hl, Nat.eqb_refl, port_ok_range.
Qed.

Lemma ip_ok_UDP (n : nat) (ip : list Z) (port : Z) :
  length ip = n -> 0 <= port < 65536 ->
  ip_ok n (net.UDPAddr ip port EmptyString) = true.
Proof.
  intros Hl Hp. cbn [ip_ok]. now rewrite Hl, Nat.eqb_refl, port_ok_range.
Qed.

Lemma unix_ok_decoded (network : string) (name : list Z) :
  length name = 108%nat ->
  unix_ok network {| net.Name := string_of_bytes name; net.Net := network |}
  = true.
Proof.
  intros Hl. unfold unix_ok. cbn [net.Name net.Net].
  now rewrite string_of_bytes_length, Hl, String.eqb_refl.
Qed.

Section ByteSource.

Context {R : Type} {reader : Reader R}.

(** The states in which the source delivers values of Go's type [byte]. *)
Variable inv : R -> Prop.

Hypothesis Read_bytes :
  forall (r : R) (n : nat),
    inv r ->
    Forall (fun x => 0 <= x < 256) (fst (fst (Read r n)))
    /\ inv (snd (Read r n)).

Lemma call_Read_bytes (r : R) (n : nat) :
  inv r ->
  length (fst (fst (fst (call_Read r (make n))))) = n
  /\ Forall (fun x => 0 <= x < 256) (fst (fst (fst (call_Read r (make n)))))
  /\ inv (snd (call_Read r (make n))).
Proof.
  intros Hinv. unfold call_Read. rewrite make_length.
  destruct (Read_bytes r n Hinv) as [Hb Hi].
  destruct (Read r n) as [[p e] r']. cbn [fst snd] in *.
  split; [now rewrite copy_length, make_length|]. split; [|assumption].
  unfold copy. apply Forall_app. split.
  - apply Forall_firstn_skipn. now apply Forall_firstn_skipn.
  - apply Forall_firstn_skipn. unfold make.
    apply Forall_forall. intros x Hx. apply repeat_spec in Hx. lia.
Qed.

(** Names the results of the next read and records that the source still
    delivers bytes. *)
Ltac keep lemma call :=
  let Hk := fresh "Hk" in
  pose proof lemma as Hk;
  destruct call as [[[? ?] [?|]] ?]; cbn [fst snd] in Hk;
  cbv beta iota zeta.

Lemma VersionByte_ReadFrom_bytes (v : VersionByte.t) (r : R) :
  inv r -> inv (snd (VersionByte.ReadFrom v r)).
Proof.
  intros Hinv. unfold VersionByte.ReadFrom.
  keep (call_Read_bytes r 1 Hinv) (call_Read r (make 1)); apply Hk.
Qed.

Lemma ProtocolByte_ReadFrom_bytes (p : ProtocolByte.t) (r : R) :
  inv r -> inv (snd (ProtocolByte.ReadFrom p r)).
Proof.
  intros Hinv. unfold ProtocolByte.ReadFrom.
  keep (call_Read_bytes r 1 Hinv) (call_Read r (make 1)); apply Hk.
Qed.

Lemma AddressLength_ReadFrom_bytes (a : Z) (r : R) :
  inv r -> inv (snd (AddressLength.ReadFrom a r)).
Proof.
  intros Hinv. unfold AddressLength.ReadFrom.
  keep (call_Read_bytes r 2 Hinv) (call_Read r (make 2)); apply Hk.
Qed.

Lemma readPort_bytes (r : R) :
  inv r ->
  0 <= fst (fst (fst (readPort r))) < 65536 /\ inv (snd (readPort r)).
Proof.
  intros Hinv. unfold readPort.
  keep (call_Read_bytes r 2 Hinv) (call_Read r (make 2));
    destruct Hk as (Hlen & Hb & Hi); cbn [fst snd]; (split; [|assumption]);
    [lia|].
  destruct l as [|a [|b [|? ?]]]; try discriminate Hlen.
  inversion_clear Hb as [|? ? Ha Hb']. inversion_clear Hb' as [|? ? Hb _].
  now apply Uint16_range.
Qed.

Lemma readIP_bytes (r : R) (n : nat) :
  inv r ->
  match snd (fst (readIP r n)) with
  | None => exists ip, fst (fst (fst (readIP r n))) = Some ip /\ length ip = n
  | Some _ => True
  end
  /\ inv (snd (readIP r n)).
Proof.
  intros Hinv. unfold readIP.
  keep (call_Read_bytes r n Hinv) (call_Read r (make n));
    destruct Hk as (Hlen & Hb & Hi); cbn [fst snd]; eauto.
Qed.

Lemma readIPsAndPorts_bytes (r : R) (n : nat) :
  inv r ->
  ip_result_ok n (fst (fst (fst (readIPsAndPorts r n))))
  /\ inv (snd (readIPsAndPorts r n)).
Proof.
  intros Hinv. unfold readIPsAndPorts.
  keep (readIP_bytes r n Hinv) (readIP r n);
    destruct Hk as [Hs Hi]; [cbn [fst snd ip_result_ok]; auto|].
  match goal with |- context [readIP ?r' n] =>
    keep (readIP_bytes r' n Hi) (readIP r' n) end;
    destruct Hk as [Hd Hi1]; [cbn [fst snd ip_result_ok]; auto|].
  match goal with |- context [readPort ?r'] =>
    keep (readPort_bytes r' Hi1) (readPort r') end;
    destruct Hk as [Hsp Hi2]; [cbn [fst snd ip_result_ok]; auto|].
  match goal with |- context [readPort ?r'] =>
    keep (readPort_bytes r' Hi2) (readPort r') end;
    destruct Hk as [Hdp Hi3]; cbn [fst snd ip_result_ok]; [auto|].
  split; [|assumption].
  destruct Hs as (sip & -> & Hs), Hd as (dip & -> & Hd).
  exists sip, dip. cbn. auto 10.
Qed.

Lemma readUnix_bytes (r : R) :
  inv r ->
  match fst (fst (fst (readUnix r))) with
  | Some res =>
      length (SourceAddr res) = 108%nat /\ length (DestinationAddr res) = 108%nat
  | None => True
  end
  /\ inv (snd (readUnix r)).
Proof.
  intros Hinv. unfold readUnix.
  keep (call_Read_bytes r 108 Hinv) (call_Read r (make 108));
    destruct Hk as (Hs & _ & Hi); [cbn [fst snd]; auto|].
  match goal with |- context [call_Read ?r' (make 108)] =>
    keep (call_Read_bytes r' 108 Hi) (call_Read r' (make 108)) end;
    destruct Hk as (Hd & _ & Hi1); cbn [fst snd]; auto.
Qed.

Ltac next_bytes :=
  match goal with
  | Hi : inv ?r |- context [call_Read ?r (make ?n)] =>
      keep (call_Read_bytes r n Hi) (call_Read r (make n));
      match goal with Hk : _ /\ _ /\ inv _ |- _ => destruct Hk as (_ & _ & ?) end
  | Hi : inv ?r |- context [VersionByte.ReadFrom ?v ?r] =>
      keep (VersionByte_ReadFrom_bytes v r Hi) (VersionByte.ReadFrom v r)
  | Hi : inv ?r |- context [ProtocolByte.ReadFrom ?p ?r] =>
      keep (ProtocolByte_ReadFrom_bytes p r Hi) (ProtocolByte.ReadFrom p r)
  | Hi : inv ?r |- context [AddressLength.ReadFrom ?a ?r] =>
      keep (AddressLength_ReadFrom_bytes a r Hi) (AddressLength.ReadFrom a r)
  | Hi : inv ?r |- context [readIPsAndPorts ?r ?n] =>
      keep (readIPsAndPorts_bytes r n Hi) (readIPsAndPorts r n);
      match goal with Hk : ip_result_ok _ _ /\ inv _ |- _ =>
        destruct Hk as [? ?] end
  | Hi : inv ?r |- context [readUnix ?r] =>
      keep (readUnix_bytes r Hi) (readUnix r);
      match goal with Hk : _ /\ inv _ |- _ => destruct Hk as [? ?] end
  | |- context [if ?c then _ else _] => destruct c eqn:?
  | |- context [match ?x with Some _ => _ | None => _ end] => is_var x; destruct x
  | |- context [match ?x with Build_ipReadResult _ _ _ _ => _ end] =>
      is_var x; destruct x
  end.

Ltac decoded_ip :=
  match goal with
  | H : ip_result_ok _ (Some _) |- _ =>
      destruct H as (? & ? & Es & Ed & ? & ? & ? & ?);
      cbn [sourceIP destinationIP sourcePort destinationPort] in *;
      injection Es as <-; injection Ed as <-
  end;
  cbn [wire_form same_transport]; rewrite andb_true_r;
  apply andb_true_iff; split;
  first [apply ip_ok_TCP | apply ip_ok_UDP]; assumption.

Ltac decoded_unix :=
  match goal with
  | H : length (SourceAddr _) = 108%nat /\ _ |- _ => destruct H as [? ?]
  end;
  cbn [wire_form]; apply orb_true_iff;
  first [ left; apply andb_true_iff; split; apply unix_ok_decoded; assumption
        | right; apply andb_true_iff; split; apply unix_ok_decoded; assumption ].

(** A decode that ends without an error leaves a command that is LOCAL or
    PROXY and either the address the header had or one in wire form. *)
Lemma Header_ReadFrom_bytes (h : Header.t) (r : R) :
  inv r ->
  match fst (fst (Header.ReadFrom h r)) with
  | Return _ None =>
      (Header.Command (snd (fst (Header.ReadFrom h r))) = CommandLOCAL
       \/ Header.Command (snd (fst (Header.ReadFrom h r))) = CommandPROXY)
      /\ (Header.ProxyAddress (snd (fst (Header.ReadFrom h r)))
          = Header.ProxyAddress h
          \/ exists a : ProxyAddress,
               Header.ProxyAddress (snd (fst (Header.ReadFrom h r))) = Some a
               /\ wire_form a = true)
  | _ => True
  end.
Proof.
  intros Hinv. unfold Header.ReadFrom. repeat next_bytes;
    cbn [fst snd Header.Command Header.ProxyAddress Header.set_ProxyAddress
         Header.set_Command];
    try exact I;
    (split; [apply command_ok_inv; assumption|]);
    first [ left; reflexivity
          | right; eexists; split; [reflexivity|];
            first [decoded_ip | decoded_unix] ].
Qed.

End ByteSource.

Lemma ShortReader_bytes (r : ShortReader) (n : nat) :
  Forall (fun x => 0 <= x < 256) (pending r) ->
  Forall (fun x => 0 <= x < 256) (fst (fst (Read r n)))
  /\ Forall (fun x => 0 <= x < 256) (pending (snd (Read r n))).
Proof.
  intros Hb. unfold Read, ShortReader_Reader, ShortReader_Read.
  destruct (pending r) as [|x s] eqn:E; cbn [fst snd pending].
  - rewrite E. split; constructor.
  - apply Forall_firstn_skipn. assumption.
Qed.

(** X19. What a decode can leave in the header.  For a source that serves
    bytes (values in 0..255) in chunks of any sizes, whenever
    [Header.ReadFrom] returns without an error the command it left is LOCAL
    or PROXY, and the address is either the one the header had before the
    call or an address in wire form ([wire_form]): short reads can change
    the values decoded, never their shape. *)
Theorem decoded_header_is_in_wire_form
  (h h' : Header.t) (data : list Z) (lims : list nat) (m : Z) (r' : ShortReader) :
  Forall (fun x => 0 <= x < 256) data ->
  Header.ReadFrom h {| pending := data; limits := lims |} = (Return m None, h', r') ->
  (Header.Command h' = CommandLOCAL \/ Header.Command h' = CommandPROXY)
  /\ (Header.ProxyAddress h' = Header.ProxyAddress h
      \/ exists a : ProxyAddress,
           Header.ProxyAddress h' = Some a /\ wire_form a = true).
Proof.
  intros Hb E.
  pose proof (Header_ReadFrom_bytes
                (fun r => Forall (fun x => 0 <= x < 256) (pending r))
                ShortReader_bytes h {| pending := data; limits := lims |} Hb)
    as H.
  rewrite E in H. exact H.
Qed.

Lemma decoded_header_is_in_wire_form_witness :
  (Header.Command (PROXY (IPv4Address (localhost 42446) (localhost 1338)))
   = CommandLOCAL
   \/ Header.Command (PROXY (IPv4Address (localhost 42446) (localhost 1338)))
      = CommandPROXY)
  /\ (Header.ProxyAddress (PROXY (IPv4Address (localhost 42446) (localhost 1338)))
      = Header.ProxyAddress Header.zero
      \/ exists a : ProxyAddress,
           Header.ProxyAddress
             (PROXY (IPv4Address (localhost 42446) (localhost 1338))) = Some a
           /\ wire_form a = true).
Proof.
  apply (decoded_header_is_in_wire_form Header.zero
           (PROXY (IPv4Address (localhost 42446) (localhost 1338)))
           canonical_vector [20%nat; 1%nat; 1%nat] 28
           {| pending := []; limits := [] |}).
  - unfold canonical_vector, encodedHeaders. cbn [nth].
    repeat constructor; lia.
  - reflexivity.
Defined.
